(** * Fashion trend analytics pipeline: a shallow embedding of
      [fashion_trend_analytics/scripts/pipeline.py] and its properties.

    Conventions of the embedding.
    - A Python [str] is a [string]; the text functions are written for
      7-bit text (for code points above 127 Python's [\w], [\S], [strip]
      and [lower] consult the Unicode tables, which are not modelled).
    - A pandas [float64] cell is a binary64 [float]; the missing marker of
      a numeric column is NaN, as in pandas.  A missing cell of an object
      column ([post_id], [date], [text]) is [None].
    - A data frame is the list of its rows, in row order.
    - The date formats [pd.to_datetime] knows and the order in which
      [sort_values] leaves equal values belong to pandas, not to the
      script: they are the fields of the class [Pandas].  The sentiment
      analyser is a function from text to score. *)

From Stdlib Require Import List String Ascii Bool NArith ZArith Lia.
From Stdlib Require Import Permutation Sorted OrderedTypeEx.
From Stdlib Require Import Uint63 Floats.
Import ListNotations.

Local Open Scope string_scope.
Local Open Scope list_scope.

(** ** Characters and the three regular expressions *)

Module Chars.

Definition code (c : ascii) : N := N_of_ascii c.

Definition between (lo hi : N) (c : ascii) : bool :=
  (lo <=? code c)%N && (code c <=? hi)%N.

(** [\s] and [str.strip]: TAB, LF, VT, FF, CR, FS, GS, RS, US and SPACE. *)
Definition is_space (c : ascii) : bool :=
  between 9 13 c || between 28 32 c.

(** [[a-z]] *)
Definition is_lower (c : ascii) : bool := between 97 122 c.

Definition is_upper (c : ascii) : bool := between 65 90 c.

Definition is_digit (c : ascii) : bool := between 48 57 c.

(** [\w] on 7-bit text: letters, digits and the underscore. *)
Definition is_word (c : ascii) : bool :=
  is_lower c || is_upper c || is_digit c || (code c =? 95)%N.

(** [str.lower] on a 7-bit character: A-Z change. *)
Definition lower_char (c : ascii) : ascii :=
  if is_upper c then ascii_of_N (code c + 32) else c.

End Chars.

Import Chars.

(** [str.lower] *)
Fixpoint lower (s : string) : string :=
  match s with
  | EmptyString => EmptyString
  | String c r => String (lower_char c) (lower r)
  end.

Fixpoint lstrip (s : string) : string :=
  match s with
  | EmptyString => EmptyString
  | String c r => if is_space c then lstrip r else s
  end.

Fixpoint rstrip (s : string) : string :=
  match s with
  | EmptyString => EmptyString
  | String c r =>
      match rstrip r with
      | EmptyString => if is_space c then EmptyString else String c EmptyString
      | r' => String c r'
      end
  end.

(** [str.strip] without argument *)
Definition strip (s : string) : string := rstrip (lstrip s).

(** The character at offset [n] exists and is not white space. *)
Definition nonspace_at (n : nat) (s : string) : bool :=
  match get n s with
  | Some c => negb (is_space c)
  | None => false
  end.

(** A match of [URL_RE = http\S+|www\.\S+] starts at the head of [s]. *)
Definition url_here (s : string) : bool :=
  (prefix "http" s && nonspace_at 4 s) || (prefix "www." s && nonspace_at 4 s).

(** [URL_RE.sub("", s)].  Both alternatives end in a greedy [\S+] and every
    character of "http" and "www." is itself not white space, so a match
    is the whole run of non-space characters from where it starts;
    [skipping] records that the scan is inside such a run. *)
Fixpoint url_sub (skipping : bool) (s : string) : string :=
  match s with
  | EmptyString => EmptyString
  | String c r =>
      if is_space c then String c (url_sub false r)
      else if skipping then url_sub true r
      else if url_here s then url_sub true r
      else String c (url_sub false r)
  end.

(** <<
def clean_text(s: str) -> str:
    s = s or ""
    s = URL_RE.sub("", s)
    return s.strip()
>> *)
Definition clean_text (s : option string) : string :=
  let s := match s with Some s => s | None => "" end in
  let s := url_sub false s in
  strip s.

Definition emit (w : string) : list string :=
  match w with EmptyString => [] | _ => [w] end.

(** [HASHTAG_RE.findall(s)] for [HASHTAG_RE = #(\w+)]: [cur] is the group
    captured so far when the scan is behind a [#]. *)
Fixpoint hashtag_findall (cur : option string) (s : string) : list string :=
  match s with
  | EmptyString => match cur with Some w => emit w | None => [] end
  | String c r =>
      let restart :=
        if (code c =? 35)%N then hashtag_findall (Some EmptyString) r
        else hashtag_findall None r in
      match cur with
      | Some w =>
          if is_word c then hashtag_findall (Some (String.append w (String c EmptyString))) r
          else (emit w ++ restart)%list
      | None => restart
      end
  end.

(** <<
def extract_hashtags(s: str):
    return [h.lower() for h in HASHTAG_RE.findall(s or "")]
>> *)
Definition extract_hashtags (s : option string) : list string :=
  let s := match s with Some s => s | None => "" end in
  map lower (hashtag_findall None s).

(** [str.findall(r"[a-z]+")]: the maximal runs of lower-case letters. *)
Fixpoint findall_lower (cur : string) (s : string) : list string :=
  match s with
  | EmptyString => emit cur
  | String c r =>
      if is_lower c then findall_lower (String.append cur (String c EmptyString)) r
      else (emit cur ++ findall_lower EmptyString r)%list
  end.

(** ** The controlled vocabulary *)

Definition COLOR_WORDS : list string :=
  ["red"; "blue"; "black"; "white"; "green"; "beige"; "pastel"].

Definition STYLE_WORDS : list string :=
  ["denim"; "linen"; "leather"; "knit"; "floral"].

Definition MOOD_WORDS : list string :=
  ["minimal"; "romantic"; "edgy"; "cozy"; "casual"; "bold"; "confident";
   "lightweight"; "mood"].

(** [TAG_WORDS = set(COLOR_WORDS + STYLE_WORDS + MOOD_WORDS)]; the script
    only ever tests membership in it. *)
Definition TAG_WORDS : list string :=
  (COLOR_WORDS ++ STYLE_WORDS ++ MOOD_WORDS)%list.

Definition in_TAG_WORDS (t : string) : bool :=
  existsb (String.eqb t) TAG_WORDS.

(** ** [sorted({...})]: the distinct elements in increasing order *)

Section SortedSet.

Variable A : Type.
Variable cmp : A -> A -> comparison.

Fixpoint insert_set (x : A) (l : list A) : list A :=
  match l with
  | [] => [x]
  | y :: r =>
      match cmp x y with
      | Lt => x :: l
      | Eq => l
      | Gt => y :: insert_set x r
      end
  end.

Definition sorted_set (l : list A) : list A :=
  fold_right insert_set [] l.

End SortedSet.

Arguments insert_set {A} cmp x l.
Arguments sorted_set {A} cmp l.

(** Python compares strings code point by code point. *)
Definition sorted_strs : list string -> list string := sorted_set String.compare.

(** <<
def keyword_tags(tokens):
    return sorted({t for t in tokens if t in TAG_WORDS})
>> *)
Definition keyword_tags (tokens : list string) : list string :=
  sorted_strs (filter in_TAG_WORDS tokens).

(** [lambda tags: sorted({t for t in tags if t in TAG_WORDS})], applied to
    [hashtags + kw_tags] (line 75). *)
Definition all_tags_of (hashtags kw_tags : list string) : list string :=
  sorted_strs (filter in_TAG_WORDS (hashtags ++ kw_tags)%list).

(** ** Dates and ISO week labels *)

(** The calendar date of a pandas [Timestamp] (the time of day plays no
    part in [%G-W%V]). *)
Record Timestamp := { year : Z; month : Z; day : Z }.

Local Open Scope Z_scope.

(** Days since 1970-01-01 in the proleptic Gregorian calendar. *)
Definition days_from_civil (y m d : Z) : Z :=
  let y' := if m <=? 2 then y - 1 else y in
  let era := y' / 400 in
  let yoe := y' - era * 400 in
  let mp := if m <=? 2 then m + 9 else m - 3 in
  let doy := (153 * mp + 2) / 5 + d - 1 in
  let doe := yoe * 365 + yoe / 4 - yoe / 100 + doy in
  era * 146097 + doe - 719468.

(** ISO weekday, Monday = 1 ... Sunday = 7 (1970-01-01 was a Thursday). *)
Definition isoweekday (days : Z) : Z := (days + 3) mod 7 + 1.

(** The ISO week-numbering year and week of a date are those of the
    Thursday of its week. *)
Definition isocalendar (t : Timestamp) : Z * Z :=
  let days := days_from_civil (year t) (month t) (day t) in
  let thu := days - (isoweekday days - 1) + 3 in
  let jan1 y := days_from_civil y 1 1 in
  let gy := if thu <? jan1 (year t) then year t - 1
            else if jan1 (year t + 1) <=? thu then year t + 1
            else year t in
  (gy, (thu - jan1 gy) / 7 + 1).

Definition digit (n : Z) : ascii := ascii_of_N (48 + Z.to_N (n mod 10)).

(** <<
def safe_week(d):
    if isinstance(d, str):
        d = datetime.fromisoformat(d)
    return d.strftime("%G-W%V")
>>
    [main] applies it to the parsed [date] column only, so [d] is a
    [Timestamp] (years 1677 to 2262: four digits). *)
Definition safe_week (d : Timestamp) : string :=
  let '(gy, wk) := isocalendar d in
  String (digit (gy / 1000)) (String (digit (gy / 100)) (String (digit (gy / 10))
  (String (digit gy) (String "-" (String "W" (String (digit (wk / 10))
  (String (digit wk) EmptyString))))))).

Local Close Scope Z_scope.

(** ** Numeric columns *)

Local Open Scope float_scope.

(** [Series.fillna(0)] on a float column *)
Definition fillna0 (x : float) : float := if is_nan x then 0 else x.

(** Python's [0.1] *)
Definition tenth : float := 0x1.999999999999ap-4.

(** [df["likes"].fillna(0) + 0.1 * df["views"].fillna(0)] (line 78), one row *)
Definition engagement_of (likes views : float) : float :=
  fillna0 likes + tenth * fillna0 views.

Definition float_of_nat (n : nat) : float := of_uint63 (Uint63.of_Z (Z.of_nat n)).

(** One step of the compensated sum the ["mean"] of a group is added up
    with (pandas' [group_mean]):
    <<
    y = val - compensation
    t = sumx + y
    compensation = t - sumx - y
    if compensation != compensation: compensation = 0.
    sumx = t
    >>
    on the pair (sumx, compensation). *)
Definition kahan_add (st : float * float) (val : float) : float * float :=
  let '(sumx, compensation) := st in
  let y := val - compensation in
  let t := sumx + y in
  let c := t - sumx - y in
  (t, if is_nan c then 0 else c).

(** The mean of the given values: their compensated sum in row order,
    from (0, 0), over their number. *)
Definition mean (xs : list float) : float :=
  fst (fold_left kahan_add xs (0, 0)) / float_of_nat (List.length xs).

Definition notna (x : float) : bool := negb (is_nan x).

(** The ["mean"] aggregation of a group: missing values are skipped, and
    the result is missing when nothing is left. *)
Definition agg_mean (xs : list float) : float :=
  match filter notna xs with
  | [] => nan
  | ys => mean ys
  end.

Local Close Scope float_scope.

(** The ["count"] aggregation: the number of non-missing cells. *)
Definition agg_count {A} (xs : list (option A)) : Z :=
  Z.of_nat (List.length (filter (fun x => match x with Some _ => true | None => false end) xs)).

(** ** Frames *)

(** A row of the input CSV as [pd.read_csv] delivers it. *)
Record Post := {
  post_id : option string;
  date : option string;
  text : option string;
  likes : float;
  views : float
}.

(** The order of [sort_values(ascending=False)]: larger values first,
    missing values last. *)
Definition ranks_before (a b : string * option Z) : Prop :=
  match snd a, snd b with
  | Some x, Some y => (y <= x)%Z
  | _, None => True
  | None, Some _ => False
  end.

(** What pandas contributes beyond the script.
    - The date formats: the format guessed from one date string, the
      parse of a string in a given format, and the parse of a string on
      its own (with [errors="coerce"], [None] is NaT).
    - [sort_values(ascending=False)], of which only the two laws are
      known: the order among equal values depends on the sort kernel. *)
Class Pandas := {
  Format : Type;
  guess_datetime_format : string -> option Format;
  strptime : Format -> string -> option Timestamp;
  parse_alone : string -> option Timestamp;
  sort_values_desc : list (string * option Z) -> list (string * option Z);
  sort_values_perm : forall s, Permutation s (sort_values_desc s);
  sort_values_sorted : forall s, StronglySorted ranks_before (sort_values_desc s)
}.

(** The first cell of the column that is not missing *)
Fixpoint first_non_null (col : list (option string)) : option string :=
  match col with
  | [] => None
  | Some s :: _ => Some s
  | None :: r => first_non_null r
  end.

(** The format of a column is guessed from its first cell that is not
    missing; there may be none. *)
Definition inferred_format `{Pandas} (col : list (option string)) : option Format :=
  match first_non_null col with
  | Some s => guess_datetime_format s
  | None => None
  end.

(** One cell: in the format of the column when there is one, on its own
    otherwise. *)
Definition parse_cell `{Pandas} (fmt : option Format) (s : string) : option Timestamp :=
  match fmt with
  | Some f => strptime f s
  | None => parse_alone s
  end.

(** [pd.to_datetime(column, errors="coerce")]: every cell is parsed in the
    one format guessed for the column, and a cell that is missing or does
    not parse so becomes NaT.  When no format is guessed every cell is
    parsed on its own (which is also what a pandas before version 2 does
    throughout: there the guess always fails). *)
Definition to_datetime `{Pandas} (col : list (option string)) : list (option Timestamp) :=
  let fmt := inferred_format col in
  map (fun cell => match cell with
                   | Some s => parse_cell fmt s
                   | None => None
                   end) col.

(** The optional sentiment capability: [HAVE_VADER] and, when it is there,
    [lambda t: sia.polarity_scores(t)["compound"]]. *)
Inductive Vader :=
| NoVader
| HaveVader (compound : string -> float).

Module Df.

(** A row of [df] after line 84: the input columns, the parsed date and
    the derived columns. *)
Record t := {
  input : Post;
  timestamp : Timestamp;
  text_clean : string;
  hashtags : list string;
  tokens : list string;
  kw_tags : list string;
  all_tags : list string;
  engagement : float;
  sentiment : float;
  week : string
}.

End Df.

Module Weekly.

(** A row of [weekly] (and of weekly_tag_summary.csv). *)
Record t := {
  week : string;
  all_tags : string;
  posts : Z;
  avg_engagement : float;
  avg_sentiment : float
}.

End Weekly.

(** [Series.astype(str)] on the [text] column: a missing cell becomes the
    string "nan". *)
Definition astype_str (x : option string) : string :=
  match x with Some s => s | None => "nan" end.

(** [Series.fillna("")] *)
Definition fillna_empty (x : option string) : string :=
  match x with Some s => s | None => "" end.

(** <<
def add_sentiment(df):
    if not HAVE_VADER:
        df["sentiment"] = None
        return df
    ...
    df["sentiment"] = df["text"].fillna("").apply(lambda t: sia.polarity_scores(t)["compound"])
>>
    for one row. *)
Definition add_sentiment (v : Vader) (p : Post) : float :=
  match v with
  | NoVader => nan
  | HaveVader compound => compound (fillna_empty (text p))
  end.

Section Main.

Context {pandas : Pandas}.
Variable vader : Vader.

(** Lines 63-64: [to_datetime(errors="coerce")], then
    [dropna(subset=["date"])]. *)
Definition dropna_date (df : list Post) : list (Post * Timestamp) :=
  flat_map (fun pd => match snd pd with
                      | Some d => [(fst pd, d)]
                      | None => []
                      end) (combine df (to_datetime (map date df))).

(** Lines 67-84 for one surviving row. *)
Definition derive (pd : Post * Timestamp) : Df.t :=
  let '(p, d) := pd in
  let text_clean := lower (clean_text (Some (astype_str (text p)))) in
  let hashtags := extract_hashtags (Some text_clean) in
  let tokens := findall_lower EmptyString text_clean in
  let kw_tags := keyword_tags tokens in
  {| Df.input := p;
     Df.timestamp := d;
     Df.text_clean := text_clean;
     Df.hashtags := hashtags;
     Df.tokens := tokens;
     Df.kw_tags := kw_tags;
     Df.all_tags := all_tags_of hashtags kw_tags;
     Df.engagement := engagement_of (likes p) (views p);
     Df.sentiment := add_sentiment vader p;
     Df.week := safe_week d |}.

(** [df] after line 84 *)
Definition frame (csv : list Post) : list Df.t := map derive (dropna_date csv).

(** Line 87: [df.explode("all_tags")] gives one row per list element, and
    one row with a missing tag for an empty list;
    [dropna(subset=["all_tags"])] removes the latter. *)
Definition explode (df : list Df.t) : list (Df.t * option string) :=
  flat_map (fun r => match Df.all_tags r with
                     | [] => [(r, None)]
                     | ts => map (fun t => (r, Some t)) ts
                     end) df.

(** [dropna(subset=["all_tags"])] *)
Definition dropna_all_tags (ex : list (Df.t * option string)) : list (Df.t * string) :=
  flat_map (fun e => match snd e with
                     | Some t => [(fst e, t)]
                     | None => []
                     end) ex.

(** [exploded] of line 87 *)
Definition exploded (df : list Df.t) : list (Df.t * string) :=
  dropna_all_tags (explode df).

(** Lines 90-94: [groupby(["week","all_tags"], as_index=False)] sorts the
    distinct keys; a group keeps its rows in frame order. *)
Definition key_compare (a b : string * string) : comparison :=
  match String.compare (fst a) (fst b) with
  | Eq => String.compare (snd a) (snd b)
  | c => c
  end.

Definition key_eqb (a b : string * string) : bool :=
  String.eqb (fst a) (fst b) && String.eqb (snd a) (snd b).

Definition group_key (e : Df.t * string) : string * string :=
  (Df.week (fst e), snd e).

Definition group_of (k : string * string) (ex : list (Df.t * string)) : list Df.t :=
  map fst (filter (fun e => key_eqb (group_key e) k) ex).

Definition agg (k : string * string) (g : list Df.t) : Weekly.t :=
  {| Weekly.week := fst k;
     Weekly.all_tags := snd k;
     Weekly.posts := agg_count (map (fun r => post_id (Df.input r)) g);
     Weekly.avg_engagement := agg_mean (map Df.engagement g);
     Weekly.avg_sentiment := agg_mean (map Df.sentiment g) |}.

Definition weekly_of (df : list Df.t) : list Weekly.t :=
  let ex := exploded df in
  map (fun k => agg k (group_of k ex)) (sorted_set key_compare (map group_key ex)).

(** ** Rising tags (lines 100-109) *)

(** A pandas Series indexed by tag. *)
Definition Series (V : Type) : Type := list (string * V).

Definition lookup {V} (t : string) (s : Series V) : option V :=
  option_map snd (find (fun e => String.eqb (fst e) t) s).

Definition Zsum (l : list Z) : Z := fold_right Z.add 0%Z l.

(** [Series.isin] *)
Definition isin (w : string) (ws : list string) : bool :=
  existsb (String.eqb w) ws.

(** [tbl.groupby("all_tags")["posts"].sum()] *)
Definition groupby_tag_sum (tbl : list Weekly.t) : Series Z :=
  map (fun t => (t, Zsum (map Weekly.posts
                   (filter (fun r => String.eqb (Weekly.all_tags r) t) tbl))))
      (sorted_strs (map Weekly.all_tags tbl)).

(** [a - b] on two Series: the index is the sorted union of both, and a
    label missing on either side gives a missing value. *)
Definition series_sub (a b : Series Z) : Series (option Z) :=
  map (fun t => (t, match lookup t a, lookup t b with
                    | Some x, Some y => Some (x - y)%Z
                    | _, _ => None
                    end))
      (sorted_strs (map fst a ++ map fst b)).

(** [d.fillna(other)]: a missing value takes the value [other] has at the
    same label, when it has one. *)
Definition series_fillna (d : Series (option Z)) (other : Series Z) : Series (option Z) :=
  map (fun e => (fst e, match snd e with
                        | Some v => Some v
                        | None => lookup (fst e) other
                        end)) d.

(** [weeks_sorted[-2:]] *)
Definition last2 {A} (l : list A) : list A := skipn (List.length l - 2) l.

(** [weeks_sorted[-4:-2]] *)
Definition prior2 {A} (l : list A) : list A :=
  skipn (List.length l - 4) (firstn (List.length l - 2) l).

Definition weeks_sorted (weekly : list Weekly.t) : list string :=
  sorted_strs (map Weekly.week weekly).

Definition recent_sum (weekly : list Weekly.t) : Series Z :=
  groupby_tag_sum (filter (fun r => isin (Weekly.week r) (last2 (weeks_sorted weekly))) weekly).

Definition prior_sum (weekly : list Weekly.t) : Series Z :=
  groupby_tag_sum (filter (fun r => isin (Weekly.week r) (prior2 (weeks_sorted weekly))) weekly).

(** Line 106 before the sort *)
Definition delta_unsorted (weekly : list Weekly.t) : Series (option Z) :=
  series_fillna (series_sub (recent_sum weekly) (prior_sum weekly)) (recent_sum weekly).

(** [s.head(5).index] as a list *)
Definition head5_index {V} (s : Series V) : list string := firstn 5 (map fst s).

(** The body of [try] (lines 101-107).  On a weekly table none of its
    operations raises: slicing a short list and subtracting Series with
    disjoint labels both succeed. *)
Definition rising_try (weekly : list Weekly.t) : option (list string) :=
  let delta := sort_values_desc (delta_unsorted weekly) in
  Some (head5_index delta).

(** The handler (line 109) *)
Definition rising_except (weekly : list Weekly.t) : list string :=
  head5_index (sort_values_desc
    (map (fun e => (fst e, Some (snd e))) (groupby_tag_sum weekly))).

Definition rising_of (weekly : list Weekly.t) : list string :=
  match rising_try weekly with
  | Some rising => rising
  | None => rising_except weekly
  end.

(** [main], up to the two values everything written afterwards is computed
    from: the weekly table and the rising-tags list. *)
Definition main (csv : list Post) : list Weekly.t * list string :=
  let weekly := weekly_of (frame csv) in
  (weekly, rising_of weekly).

End Main.

(** ** The table behind the chart (lines 112-115) *)

(** No pair occurs twice. *)
Fixpoint no_duplicate_keys (ks : list (string * string)) : bool :=
  match ks with
  | [] => true
  | k :: r => negb (existsb (key_eqb k) r) && no_duplicate_keys r
  end.

(** A frame of numbers with row and column labels; [pv_cell] is
    [frame.loc[week, tag]]. *)
Record PivotTable := {
  pv_index : list string;
  pv_columns : list string;
  pv_cell : string -> string -> Z
}.

(** [weekly.pivot(index="week", columns="all_tags", values="posts").fillna(0)]:
    the sorted weeks by the sorted tags, the posts of the row of a pair
    and 0 for a pair without row; pandas raises [ValueError] ([None]
    here) when a (week, tag) pair occurs twice. *)
Definition pivot_fillna0 (weekly : list Weekly.t) : option PivotTable :=
  if no_duplicate_keys (map (fun r => (Weekly.week r, Weekly.all_tags r)) weekly)
  then Some {| pv_index := sorted_strs (map Weekly.week weekly);
               pv_columns := sorted_strs (map Weekly.all_tags weekly);
               pv_cell := fun w t =>
                 match find (fun r => key_eqb (Weekly.week r, Weekly.all_tags r) (w, t))
                            weekly with
                 | Some r => Weekly.posts r
                 | None => 0%Z
                 end |}
  else None.

(** [pivot[rising]]: the columns named, in that order; [KeyError] ([None]
    here) when a name is not a column. *)
Definition getitem (names : list string) (p : PivotTable) : option PivotTable :=
  if forallb (fun n => isin n (pv_columns p)) names
  then Some {| pv_index := pv_index p; pv_columns := names; pv_cell := pv_cell p |}
  else None.

(** What lines 112-115 hand to [plot] when [rising] is not empty: one line
    per rising tag, a point per week. *)
Definition plotted (weekly : list Weekly.t) (rising : list string)
  : option (list (string * list (string * Z))) :=
  match pivot_fillna0 weekly with
  | None => None
  | Some p =>
      match getitem rising p with
      | None => None
      | Some q =>
          Some (map (fun t => (t, map (fun w => (w, pv_cell q w t)) (pv_index q)))
                    (pv_columns q))
      end
  end.

(** ** A concrete pandas *)

Definition digit_val (c : ascii) : option Z :=
  if is_digit c then Some (Z.of_N (code c) - 48)%Z else None.

Definition number (ds : list ascii) : option Z :=
  fold_left (fun acc c => match acc, digit_val c with
                          | Some n, Some d => Some (10 * n + d)%Z
                          | _, _ => None
                          end) ds (Some 0%Z).

(** The Gregorian calendar *)
Definition is_leap (y : Z) : bool :=
  ((y mod 4 =? 0) && negb (y mod 100 =? 0) || (y mod 400 =? 0))%Z.

Definition days_in_month (y m : Z) : Z :=
  if (m =? 2)%Z then (if is_leap y then 29 else 28)%Z
  else if ((m =? 4) || (m =? 6) || (m =? 9) || (m =? 11))%Z then 30%Z
  else 31%Z.

(** The day of the calendar with these numbers, in the years every
    pandas [Timestamp] can hold. *)
Definition civil (y m d : option Z) : option Timestamp :=
  match y, m, d with
  | Some y, Some m, Some d =>
      if ((1678 <=? y) && (y <=? 2261) && (1 <=? m) && (m <=? 12)
          && (1 <=? d) && (d <=? days_in_month y m))%Z
      then Some {| year := y; month := m; day := d |}
      else None
  | _, _, _ => None
  end.

(** The format [%Y-%m-%d]: YYYY-MM-DD *)
Definition parse_ymd (s : string) : option Timestamp :=
  match s with
  | String y1 (String y2 (String y3 (String y4 (String "-"
      (String m1 (String m2 (String "-" (String d1 (String d2 EmptyString))))))))) =>
      civil (number [y1; y2; y3; y4]) (number [m1; m2]) (number [d1; d2])
  | _ => None
  end.

(** The format [%m/%d/%Y]: MM/DD/YYYY *)
Definition parse_mdy (s : string) : option Timestamp :=
  match s with
  | String m1 (String m2 (String "/" (String d1 (String d2 (String "/"
      (String y1 (String y2 (String y3 (String y4 EmptyString))))))))) =>
      civil (number [y1; y2; y3; y4]) (number [m1; m2]) (number [d1; d2])
  | _ => None
  end.

(** The two formats of the examples *)
Inductive DateFormat := Ymd | Mdy.

Definition guess_of_two (s : string) : option DateFormat :=
  match parse_ymd s, parse_mdy s with
  | Some _, _ => Some Ymd
  | None, Some _ => Some Mdy
  | None, None => None
  end.

Definition strptime_of_two (f : DateFormat) (s : string) : option Timestamp :=
  match f with
  | Ymd => parse_ymd s
  | Mdy => parse_mdy s
  end.

Definition alone_of_two (s : string) : option Timestamp :=
  match parse_ymd s with
  | Some d => Some d
  | None => parse_mdy s
  end.

Definition ranks_beforeb (a b : string * option Z) : bool :=
  match snd a, snd b with
  | Some x, Some y => (y <=? x)%Z
  | _, None => true
  | None, Some _ => false
  end.

Fixpoint insert_desc (x : string * option Z) (l : Series (option Z)) : Series (option Z) :=
  match l with
  | [] => [x]
  | y :: r => if ranks_beforeb x y then x :: l else y :: insert_desc x r
  end.

(** A stable descending sort with the missing values last. *)
Definition stable_sort_desc (s : Series (option Z)) : Series (option Z) :=
  fold_right insert_desc [] s.

(** The two laws of [sort_values] hold of it. *)

Lemma ranks_beforeb_spec (a b : string * option Z) :
  ranks_beforeb a b = true <-> ranks_before a b.
Proof.
  unfold ranks_beforeb, ranks_before.
  destruct (snd a), (snd b); rewrite ?Z.leb_le; intuition discriminate.
Qed.

Lemma ranks_before_trans (a b c : string * option Z) :
  ranks_before a b -> ranks_before b c -> ranks_before a c.
Proof.
  unfold ranks_before. destruct (snd a), (snd b), (snd c); try tauto; lia.
Qed.

Lemma ranks_before_total (a b : string * option Z) :
  ranks_beforeb a b = false -> ranks_before b a.
Proof.
  unfold ranks_beforeb, ranks_before.
  destruct (snd a), (snd b); rewrite ?Z.leb_gt; try discriminate; try tauto; lia.
Qed.

Lemma insert_desc_perm (x : string * option Z) (l : Series (option Z)) :
  Permutation (x :: l) (insert_desc x l).
Proof.
  induction l as [|y l IH]; simpl.
  - reflexivity.
  - destruct (ranks_beforeb x y).
    + reflexivity.
    + rewrite perm_swap. now apply perm_skip.
Qed.

Lemma stable_sort_desc_perm (s : Series (option Z)) :
  Permutation s (stable_sort_desc s).
Proof.
  induction s as [|x s IH]; simpl.
  - constructor.
  - rewrite <- insert_desc_perm. now apply perm_skip.
Qed.

Lemma insert_desc_sorted (x : string * option Z) (l : Series (option Z)) :
  StronglySorted ranks_before l -> StronglySorted ranks_before (insert_desc x l).
Proof.
  induction 1 as [|y l Hs IH Hy]; simpl.
  - repeat constructor.
  - destruct (ranks_beforeb x y) eqn:E.
    + apply ranks_beforeb_spec in E.
      constructor; [now constructor|].
      constructor; [exact E|].
      eapply Forall_impl; [|exact Hy].
      intros b Hb. now apply ranks_before_trans with y.
    + constructor; [exact IH|].
      apply Forall_forall. intros b Hb.
      apply (Permutation_in _ (Permutation_sym (insert_desc_perm x l))) in Hb.
      destruct Hb as [<-|Hb].
      * now apply ranks_before_total.
      * rewrite Forall_forall in Hy. now apply Hy.
Qed.

Lemma stable_sort_desc_sorted (s : Series (option Z)) :
  StronglySorted ranks_before (stable_sort_desc s).
Proof.
  induction s as [|x s IH]; simpl.
  - constructor.
  - now apply insert_desc_sorted.
Qed.

(** The instance the examples run on: a pandas that knows the two date
    formats [%Y-%m-%d] and [%m/%d/%Y] (and parses a string on its own in
    whichever of the two fits), with a stable sort. *)
Definition stable_pandas : Pandas :=
  {| Format := DateFormat;
     guess_datetime_format := guess_of_two;
     strptime := strptime_of_two;
     parse_alone := alone_of_two;
     sort_values_desc := stable_sort_desc;
     sort_values_perm := stable_sort_desc_perm;
     sort_values_sorted := stable_sort_desc_sorted |}.

(** * Vocabulary of the statements *)

(** A comparison function that decides equality and a strict total order. *)
Class Ordered {A : Type} (cmp : A -> A -> comparison) : Prop := {
  cmp_eq : forall a b, cmp a b = Eq <-> a = b;
  cmp_antisym : forall a b, cmp a b = CompOpp (cmp b a);
  cmp_lt_trans : forall a b c, cmp a b = Lt -> cmp b c = Lt -> cmp a c = Lt
}.

(** The strict order of a comparison function *)
Definition lt_of {A : Type} (cmp : A -> A -> comparison) (a b : A) : Prop :=
  cmp a b = Lt.

(** Strings in increasing code point order *)
Definition str_lt : string -> string -> Prop := lt_of String.compare.

(** Zero of either sign, a positive number or plus infinity. *)
Definition sf_nonneg (x : spec_float) : Prop :=
  match x with
  | S754_zero _ => True
  | S754_infinity s => s = false
  | S754_nan => False
  | S754_finite s _ _ => s = false
  end.

(** The [date] cell of the post parses in the format [fmt] of a column
    (on its own when the column has none). *)
Definition parseable `{Pandas} (fmt : option Format) (p : Post) : bool :=
  match date p with
  | Some s => match parse_cell fmt s with Some _ => true | None => false end
  | None => false
  end.

(** The cell is missing, or a string that parses neither on its own nor in
    any format. *)
Definition never_parses `{Pandas} (cell : option string) : Prop :=
  match cell with
  | Some s => parse_alone s = None /\ forall f, strptime f s = None
  | None => True
  end.

(** The rows whose date parses so, each with its parsed date. *)
Definition parsed_rows `{Pandas} (fmt : option Format) (csv : list Post)
  : list (Post * Timestamp) :=
  flat_map (fun p => match date p with
                     | Some s => match parse_cell fmt s with
                                 | Some d => [(p, d)]
                                 | None => []
                                 end
                     | None => []
                     end) csv.

(** The [date] cell is not missing. *)
Definition has_date (p : Post) : bool :=
  match date p with Some _ => true | None => false end.

(** The group keys of line 91, in the order of the weekly table. *)
Definition keys_of (df : list Df.t) : list (string * string) :=
  sorted_set key_compare (map group_key (exploded df)).

(** The (week, tag) pair of a weekly row. *)
Definition key_of (row : Weekly.t) : string * string :=
  (Weekly.week row, Weekly.all_tags row).

(** The post [r] is of week [w] and carries the tag [t]. *)
Definition tagged (w t : string) (r : Df.t) : bool :=
  String.eqb (Df.week r) w && existsb (String.eqb t) (Df.all_tags r).

(** The input data model: an identifier on every post, and likes and views
    that are non-negative when present. *)
Definition valid_post (p : Post) : Prop :=
  post_id p <> None
  /\ (is_nan (likes p) = true \/ (0 <=? likes p)%float = true)
  /\ (is_nan (views p) = true \/ (0 <=? views p)%float = true).

(** The row has a post identifier. *)
Definition has_post_id (r : Df.t) : bool :=
  match post_id (Df.input r) with Some _ => true | None => false end.

(** [s] is the sum of the values, added one after the other from 0 and
    each time corrected by the rounding error [c] of the addition before
    (an error that is not a number counts as none). *)
Inductive compensated_sum : list float -> float -> float -> Prop :=
| compensated_nil : compensated_sum [] 0%float 0%float
| compensated_snoc (xs : list float) (s c x : float) :
    compensated_sum xs s c ->
    compensated_sum (xs ++ [x]) (s + (x - c))%float
      (let c' := (s + (x - c) - s - (x - c))%float in
       if is_nan c' then 0%float else c').

(** [a] is the binary64 mean of the values of [xs] that are defined:
    missing when there is none, and else their compensated sum over their
    number, which for one value is the value (a zero being positive) and
    for two is half their sum. *)
Definition is_mean_of (xs : list float) (a : float) : Prop :=
  let ys := filter notna xs in
  (ys = [] -> a = nan)
  /\ (ys <> [] ->
      exists s c, compensated_sum ys s c
                  /\ a = (s / float_of_nat (List.length ys))%float)
  /\ (forall x, ys = [x] -> a = (0 + x)%float /\ (a =? x)%float = true)
  /\ (forall x y, ys = [x; y] -> a = ((0 + x + y) / 2)%float).

(** The value of a finite binary64 number in units of 2^-1074, the
    smallest positive one: an integer. *)
Definition units (x : float) : Z :=
  match Prim2SF x with
  | S754_finite s m e => cond_Zopp s (Zpos m * 2 ^ (e + 1074))
  | _ => 0%Z
  end.

(** The row with its sentiment cell made missing. *)
Definition without_sentiment (r : Df.t) : Df.t :=
  {| Df.input := Df.input r;
     Df.timestamp := Df.timestamp r;
     Df.text_clean := Df.text_clean r;
     Df.hashtags := Df.hashtags r;
     Df.tokens := Df.tokens r;
     Df.kw_tags := Df.kw_tags r;
     Df.all_tags := Df.all_tags r;
     Df.engagement := Df.engagement r;
     Df.sentiment := nan;
     Df.week := Df.week r |}.

(** The columns of the weekly table other than [avg_sentiment]. *)
Definition other_columns (row : Weekly.t) : string * string * Z * float :=
  (Weekly.week row, Weekly.all_tags row, Weekly.posts row, Weekly.avg_engagement row).



(** The posts of the tag over the weeks [weeks]: 0 when it has no row
    there. *)
Definition period_posts (weeks : list string) (weekly : list Weekly.t) (t : string) : Z :=
  Zsum (map Weekly.posts
         (filter (fun r => isin (Weekly.week r) weeks && String.eqb (Weekly.all_tags r) t)
                 weekly)).

(** Recent total minus prior total. *)
Definition recent_minus_prior (weekly : list Weekly.t) (t : string) : Z :=
  (period_posts (last2 (weeks_sorted weekly)) weekly t
   - period_posts (prior2 (weeks_sorted weekly)) weekly t)%Z.


(** ** Inputs of the examples *)

(** A post whose text cell is empty *)
Definition absent_text_post : Post :=
  {| post_id := Some "7"; date := Some "2025-01-01"; text := None;
     likes := 1%float; views := 1%float |}.

(** The four posts of one ISO week, with the tag sets denim; denim and
    red; red; none. *)
Definition four_posts : list Post :=
  [ {| post_id := Some "p1"; date := Some "2024-12-30";
       text := Some "Denim day http://t.co/x"; likes := 10%float; views := 50%float |};
    {| post_id := Some "p2"; date := Some "2025-01-01";
       text := Some "red on #Denim"; likes := nan; views := 20%float |};
    {| post_id := Some "p3"; date := Some "2025-01-03";
       text := Some "RED!"; likes := 3%float; views := nan |};
    {| post_id := Some "p4"; date := Some "2025-01-05";
       text := Some "nothing to tag"; likes := 1%float; views := 1%float |} ].

(** An analyser that likes one text *)
Definition toy_vader : Vader :=
  HaveVader (fun t => if String.eqb t "RED!" then 0.5%float else (-0.25)%float).

(** A post with one like and no view *)
Definition post_of (i d t : string) : Post :=
  {| post_id := Some i; date := Some d; text := Some t;
     likes := 1%float; views := 0%float |}.

(** Two posts of one week and one tag, the first without identifier *)
Definition unnamed_csv : list Post :=
  [ {| post_id := None; date := Some "2025-01-01"; text := Some "red";
       likes := 1%float; views := 0%float |};
    post_of "2" "2025-01-02" "red" ].

(** Three posts of one week and one tag with 0.1, 0.2 and 0.3 likes (the
    nearest binary64 numbers) and no views *)
Definition tenths_csv : list Post :=
  [ {| post_id := Some "1"; date := Some "2025-01-01"; text := Some "red";
       likes := 0x1.999999999999ap-4%float; views := nan |};
    {| post_id := Some "2"; date := Some "2025-01-02"; text := Some "red";
       likes := 0x1.999999999999ap-3%float; views := nan |};
    {| post_id := Some "3"; date := Some "2025-01-03"; text := Some "red";
       likes := 0x1.3333333333333p-2%float; views := nan |} ].

(** Two posts of one week whose dates are written in two formats *)
Definition slash_post : Post := post_of "a" "01/02/2025" "red".

Definition dash_post : Post := post_of "b" "2025-01-03" "blue".

Definition mixed_csv : list Post := [slash_post; dash_post].

(** A post whose date is no date, and a table with it *)
Definition undated_post : Post := post_of "c" "not-a-date" "red".

Definition undated_csv : list Post := [dash_post; undated_post; slash_post].

(** Three weeks: red and blue in the first, red in the second, black in
    the third; blue has vanished from the two recent weeks. *)
Definition vanished_csv : list Post :=
  [ post_of "1" "2025-01-01" "red"; post_of "2" "2025-01-02" "red";
    post_of "3" "2025-01-03" "red"; post_of "4" "2025-01-03" "blue";
    post_of "5" "2025-01-08" "red"; post_of "6" "2025-01-15" "black" ].

(** Its weekly table *)
Definition vanished_weekly : list Weekly.t :=
  fst (@main stable_pandas NoVader vanished_csv).

(** ** Vocabulary of the further properties *)

(** Every character of [s] satisfies [P]. *)
Fixpoint all_chars (P : ascii -> bool) (s : string) : bool :=
  match s with
  | EmptyString => true
  | String c r => P c && all_chars P r
  end.

(** No match of [URL_RE] starts anywhere in [s]. *)
Fixpoint url_free (s : string) : bool :=
  match s with
  | EmptyString => true
  | String c r => negb (url_here s) && url_free r
  end.

(** The last character *)
Fixpoint last_char (s : string) : option ascii :=
  match s with
  | EmptyString => None
  | String c EmptyString => Some c
  | String _ r => last_char r
  end.

(** The first [n] characters of [s], up to the first white space. *)
Fixpoint head_run (n : nat) (s : string) : string :=
  match n, s with
  | S n', String c r => if is_space c then EmptyString else String c (head_run n' r)
  | _, _ => EmptyString
  end.

(** [[a-z0-9_]]: what [lower] leaves of a [\w] character. *)
Definition is_lower_word (c : ascii) : bool :=
  is_lower c || is_digit c || (code c =? 95)%N.

(** The characters of [s] that satisfy [P], in order. *)
Fixpoint filter_chars (P : ascii -> bool) (s : string) : string :=
  match s with
  | EmptyString => EmptyString
  | String c r => if P c then String c (filter_chars P r) else filter_chars P r
  end.

(** A code point below 128 *)
Definition seven_bit (c : ascii) : bool := (code c <? 128)%N.

(** The argument is absent or 7-bit text. *)
Definition seven_bit_text (s : option string) : Prop :=
  match s with
  | Some x => all_chars seven_bit x = true
  | None => True
  end.

(** The strings of [l] one after the other. *)
Definition join (l : list string) : string := fold_right String.append EmptyString l.

(** Two weekly rows agree on week, tag and posts. *)
Definition same_counts (a b : Weekly.t) : Prop :=
  key_of a = key_of b /\ Weekly.posts a = Weekly.posts b.

(** The row has a tag. *)
Definition has_tags (r : Df.t) : bool :=
  match Df.all_tags r with [] => false | _ => true end.




(** ** The calendar of the week labels *)

(** The integers [lo], [lo + 1], ..., [lo + n - 1]. *)
Definition zrange (lo : Z) (n : nat) : list Z :=
  map (fun i => (lo + Z.of_nat i)%Z) (seq 0 n).

(** A date of the Gregorian calendar in the years a pandas [Timestamp]
    can hold (1677 to 2262). *)
Definition in_calendar (t : Timestamp) : Prop :=
  (1677 <= year t <= 2262)%Z
  /\ (1 <= month t <= 12)%Z
  /\ (1 <= day t <= days_in_month (year t) (month t))%Z.

(** Days since 1970-01-01 *)
Definition day_number (t : Timestamp) : Z :=
  days_from_civil (year t) (month t) (day t).

(** The number of the Monday-to-Sunday week a day lies in, counted from
    the week of Monday 1969-12-29 (day -3). *)
Definition week_of_day (n : Z) : Z := ((n + 3) / 7)%Z.

Definition week_index (t : Timestamp) : Z := week_of_day (day_number t).

(** The day number of the first of January *)
Definition jan1 (y : Z) : Z := days_from_civil y 1 1.

(** The year [y] has 365 or 366 days and each of its months lies in it. *)
Definition year_ok (y : Z) : bool :=
  ((jan1 y + 365 <=? jan1 (y + 1)) && (jan1 (y + 1) <=? jan1 y + 366)
   && forallb (fun m => (jan1 y <=? days_from_civil y m 1)
                        && (days_from_civil y m 1 + days_in_month y m <=? jan1 (y + 1)))
              (zrange 1 12))%Z.

(** The text of [%G-W%V] for an ISO year and week *)
Definition label_of (gy wk : Z) : string :=
  String (digit (gy / 1000)) (String (digit (gy / 100)) (String (digit (gy / 10))
  (String (digit gy) (String "-" (String "W" (String (digit (wk / 10))
  (String (digit wk) EmptyString))))))).

(** The week after week [wk] of year [gy], were every year to have 53. *)
Definition next_week (g : Z * Z) : Z * Z :=
  if (snd g =? 53)%Z then (fst g + 1, 1)%Z else (fst g, snd g + 1)%Z.

(** The labels of the weeks 1 to 53 of year [gy] and of week 1 of the
    next year increase. *)
Definition labels_increase (gy : Z) : bool :=
  forallb (fun wk => match String.compare (label_of gy wk)
                             (label_of (fst (next_week (gy, wk))) (snd (next_week (gy, wk)))) with
                     | Lt => true
                     | _ => false
                     end) (zrange 1 53).

(** The place of a week in the row of all weeks, 53 to the year *)
Definition week_place (g : Z * Z) : Z := (53 * fst g + snd g)%Z.

(** * Properties *)

(** ** The embedding on sample inputs *)

Example clean_text_url :
  clean_text (Some "  Love this http://x.co/a?b=1 #Denim look www.shop.com  ")
  = "Love this  #Denim look".
Proof. reflexivity. Qed.

Example hashtags_ex :
  extract_hashtags (Some "new #denim##red #! #bold_1,x") = ["denim"; "red"; "bold_1"].
Proof. reflexivity. Qed.

Example tokens_ex :
  findall_lower "" "red-denim 4u, cozy!" = ["red"; "denim"; "u"; "cozy"].
Proof. reflexivity. Qed.

Example all_tags_ex :
  all_tags_of ["red"; "sale"] (keyword_tags ["red"; "denim"; "u"; "denim"; "cozy"])
  = ["cozy"; "denim"; "red"].
Proof. reflexivity. Qed.

Example safe_week_ex :
  map safe_week [ {| year := 2025; month := 1; day := 1 |};
                  {| year := 2024; month := 12; day := 30 |};
                  {| year := 2021; month := 1; day := 3 |};
                  {| year := 2026; month := 11; day := 3 |} ]
  = ["2025-W01"; "2025-W01"; "2020-W53"; "2026-W45"].
Proof. reflexivity. Qed.

Example to_datetime_ex :
  @to_datetime stable_pandas
    [None; Some "2025-01-01"; Some "not-a-date"; Some "2025-02-30"; Some "01/02/2025"]
  = [None; Some {| year := 2025; month := 1; day := 1 |}; None; None; None].
Proof. reflexivity. Qed.

Example four_posts_run :
  @main stable_pandas NoVader four_posts
  = ([ {| Weekly.week := "2025-W01"; Weekly.all_tags := "denim"; Weekly.posts := 2;
          Weekly.avg_engagement := 8.5%float; Weekly.avg_sentiment := nan |};
       {| Weekly.week := "2025-W01"; Weekly.all_tags := "red"; Weekly.posts := 2;
          Weekly.avg_engagement := 2.5%float; Weekly.avg_sentiment := nan |} ],
     ["denim"; "red"]).
Proof. vm_compute. reflexivity. Qed.

(** ** Sorted sets *)

Section SortedSetFacts.

Context {A : Type} {cmp : A -> A -> comparison} `{Ordered A cmp}.

Lemma cmp_refl (a : A) : cmp a a = Eq.
Proof. now apply cmp_eq. Qed.

Lemma cmp_gt_lt (a b : A) : cmp a b = Gt -> cmp b a = Lt.
Proof.
  intros Hgt. rewrite cmp_antisym, Hgt. reflexivity.
Qed.

Lemma insert_set_In (x y : A) (l : list A) :
  In y (insert_set cmp x l) <-> y = x \/ In y l.
Proof.
  induction l as [|z l IH]; simpl.
  - intuition.
  - destruct (cmp x z) eqn:E; simpl.
    + apply cmp_eq in E. subst z. intuition.
    + intuition.
    + rewrite IH. intuition.
Qed.

Lemma sorted_set_In (y : A) (l : list A) :
  In y (sorted_set cmp l) <-> In y l.
Proof.
  induction l as [|x l IH]; simpl.
  - reflexivity.
  - rewrite insert_set_In, IH. intuition.
Qed.

Lemma insert_set_sorted (x : A) (l : list A) :
  StronglySorted (lt_of cmp) l -> StronglySorted (lt_of cmp) (insert_set cmp x l).
Proof.
  induction 1 as [|z l Hs IH Hz]; simpl.
  - repeat constructor.
  - destruct (cmp x z) eqn:E.
    + now constructor.
    + constructor; [now constructor|].
      constructor; [exact E|].
      eapply Forall_impl; [|exact Hz].
      intros b Hb. eapply cmp_lt_trans; eauto.
    + constructor; [exact IH|].
      apply Forall_forall. intros b Hb.
      apply insert_set_In in Hb. destruct Hb as [->|Hb].
      * now apply cmp_gt_lt.
      * rewrite Forall_forall in Hz. now apply Hz.
Qed.

Lemma sorted_set_sorted (l : list A) : StronglySorted (lt_of cmp) (sorted_set cmp l).
Proof.
  induction l as [|x l IH]; simpl.
  - constructor.
  - now apply insert_set_sorted.
Qed.

Lemma sorted_lt_NoDup (l : list A) : StronglySorted (lt_of cmp) l -> NoDup l.
Proof.
  induction 1 as [|z l Hs IH Hz]; constructor; [|exact IH].
  intros Hin. rewrite Forall_forall in Hz. specialize (Hz z Hin).
  unfold lt_of in Hz. rewrite cmp_refl in Hz. discriminate.
Qed.

Lemma sorted_set_NoDup (l : list A) : NoDup (sorted_set cmp l).
Proof. apply sorted_lt_NoDup, sorted_set_sorted. Qed.



End SortedSetFacts.

#[export] Instance string_Ordered : Ordered String.compare.
Proof.
  split.
  - intros a b. apply (OrderedTypeEx.String_as_OT.cmp_eq a b).
  - intros a b. apply String.compare_antisym.
  - intros a b c Hab Hbc.
    apply OrderedTypeEx.String_as_OT.cmp_lt.
    apply OrderedTypeEx.String_as_OT.lt_trans with b;
      now apply OrderedTypeEx.String_as_OT.cmp_lt.
Qed.

#[export] Instance key_Ordered : Ordered key_compare.
Proof.
  split.
  - intros [a1 a2] [b1 b2]. unfold key_compare. simpl.
    destruct (String.compare a1 b1) eqn:E1.
    + apply cmp_eq in E1. subst b1. rewrite (cmp_eq (cmp := String.compare)).
      split; [now intros ->|now inversion 1].
    + split; [discriminate|]. inversion 1; subst.
      rewrite cmp_refl in E1. discriminate.
    + split; [discriminate|]. inversion 1; subst.
      rewrite cmp_refl in E1. discriminate.
  - intros [a1 a2] [b1 b2]. unfold key_compare. simpl.
    rewrite (cmp_antisym (cmp := String.compare) a1 b1).
    destruct (String.compare b1 a1); simpl; try reflexivity.
    apply cmp_antisym.
  - intros [a1 a2] [b1 b2] [c1 c2]. unfold key_compare. simpl.
    destruct (String.compare a1 b1) eqn:E1; try discriminate;
      destruct (String.compare b1 c1) eqn:E2; try discriminate; intros H1 H2.
    + apply cmp_eq in E1, E2. subst. rewrite cmp_refl.
      eapply cmp_lt_trans; eauto.
    + apply cmp_eq in E1. subst. now rewrite E2.
    + apply cmp_eq in E2. subst. now rewrite E1.
    + now rewrite (cmp_lt_trans _ _ _ E1 E2).
Qed.

Lemma in_TAG_WORDS_In (t : string) : in_TAG_WORDS t = true <-> In t TAG_WORDS.
Proof.
  unfold in_TAG_WORDS. rewrite existsb_exists. split.
  - intros [x [Hx Heq]]. apply String.eqb_eq in Heq. now subst.
  - intros Hin. exists t. split; [exact Hin|apply String.eqb_refl].
Qed.

Lemma keyword_tags_In (t : string) (tokens : list string) :
  In t (keyword_tags tokens) <-> In t tokens /\ In t TAG_WORDS.
Proof.
  unfold keyword_tags, sorted_strs.
  now rewrite sorted_set_In, filter_In, in_TAG_WORDS_In.
Qed.

Lemma all_tags_of_In (t : string) (hashtags kw : list string) :
  In t (all_tags_of hashtags kw) <-> (In t hashtags \/ In t kw) /\ In t TAG_WORDS.
Proof.
  unfold all_tags_of, sorted_strs.
  now rewrite sorted_set_In, filter_In, in_app_iff, in_TAG_WORDS_In.
Qed.

(** C4 (tag extraction).  For every token sequence and every hashtag list,
    the tags computed at line 75 from [hashtags + keyword_tags(tokens)] are
    exactly the members of (hashtags ∪ tokens that are vocabulary words) ∩
    vocabulary; the list has no duplicate and is strictly increasing in
    the code point order of strings, and a word outside the vocabulary
    never appears in it. *)
Theorem tag_extraction (tokens hashtags : list string) :
  let tags := all_tags_of hashtags (keyword_tags tokens) in
  (forall t, In t tags <->
             (In t hashtags \/ (In t tokens /\ In t TAG_WORDS)) /\ In t TAG_WORDS)
  /\ NoDup tags
  /\ StronglySorted str_lt tags
  /\ (forall t, ~ In t TAG_WORDS -> ~ In t tags).
Proof.
  intros tags. unfold tags. split; [|split; [|split]].
  - intros t. rewrite all_tags_of_In, keyword_tags_In. tauto.
  - apply sorted_set_NoDup.
  - apply sorted_set_sorted.
  - intros t Hn Hin. apply all_tags_of_In in Hin. tauto.
Qed.

(** ** Binary64 signs *)

Lemma leb_zero_nonneg (x : float) :
  (0 <=? x)%float = true <-> sf_nonneg (Prim2SF x).
Proof.
  rewrite leb_spec.
  replace (Prim2SF 0) with (S754_zero false) by reflexivity.
  destruct (Prim2SF x) as [s|s| |s m e]; try destruct s; cbn;
    intuition (try discriminate; try reflexivity).
Qed.

Lemma shr_1_nonneg (mrs : shr_record) :
  (0 <= shr_m mrs)%Z -> (0 <= shr_m (shr_1 mrs))%Z.
Proof.
  destruct mrs as [m r s]. simpl.
  destruct m as [|p|p]; simpl; try lia.
  destruct p; simpl; lia.
Qed.

Lemma iter_pos_shr_1_nonneg (p : positive) (mrs : shr_record) :
  (0 <= shr_m mrs)%Z -> (0 <= shr_m (iter_pos shr_1 p mrs))%Z.
Proof.
  revert mrs. induction p as [p IH|p IH|]; intros mrs Hm; simpl.
  - apply IH, IH, shr_1_nonneg, Hm.
  - apply IH, IH, Hm.
  - apply shr_1_nonneg, Hm.
Qed.

Lemma shr_fexp_nonneg (m e : Z) (l : location) :
  (0 <= m)%Z -> (0 <= shr_m (fst (shr_fexp prec emax m e l)))%Z.
Proof.
  intros Hm. unfold shr_fexp, shr.
  assert (H0 : (0 <= shr_m (shr_record_of_loc m l))%Z).
  { destruct l as [|[]]; simpl; exact Hm. }
  destruct (fexp prec emax (Zdigits2 m + e) - e)%Z; simpl; try exact H0.
  now apply iter_pos_shr_1_nonneg.
Qed.

Lemma round_nearest_even_nonneg (m : Z) (l : location) :
  (0 <= m)%Z -> (0 <= round_nearest_even m l)%Z.
Proof.
  intros Hm. destruct l as [|[]]; simpl; try lia.
  destruct (Z.even m); lia.
Qed.

Lemma binary_round_aux_nonneg (m e : Z) (l : location) :
  (0 <= m)%Z -> sf_nonneg (binary_round_aux prec emax false m e l).
Proof.
  intros Hm. unfold binary_round_aux.
  pose proof (shr_fexp_nonneg m e l Hm) as H1.
  destruct (shr_fexp prec emax m e l) as [mrs' e']. simpl in H1.
  pose proof (shr_fexp_nonneg _ e' loc_Exact
                (round_nearest_even_nonneg _ (loc_of_shr_record mrs') H1)) as H2.
  destruct (shr_fexp prec emax _ e' loc_Exact) as [mrs'' e'']. simpl in H2.
  destruct (shr_m mrs'') as [|p|p]; simpl.
  - exact I.
  - destruct (_ <=? _)%Z; simpl; reflexivity.
  - lia.
Qed.

Lemma SF64mul_nonneg (sy : bool) (mx my : positive) (ex ey : Z) :
  sf_nonneg (SF64mul (S754_finite false mx ex) (S754_zero sy))
  /\ sf_nonneg (SF64mul (S754_finite false mx ex) (S754_infinity false))
  /\ sf_nonneg (SF64mul (S754_finite false mx ex) (S754_finite false my ey)).
Proof.
  unfold SF64mul. simpl. repeat split.
  apply binary_round_aux_nonneg. lia.
Qed.

Lemma SF64mul_finite_nonneg (mx : positive) (ex : Z) (y : spec_float) :
  sf_nonneg y -> sf_nonneg (SF64mul (S754_finite false mx ex) y).
Proof.
  destruct y as [sy|sy| |sy my ey]; simpl sf_nonneg; intros Hy; subst;
    try contradiction.
  - apply (SF64mul_nonneg sy mx 1 ex 0).
  - apply (SF64mul_nonneg false mx 1 ex 0).
  - apply (SF64mul_nonneg false mx my ex ey).
Qed.

Lemma SF64add_nonneg (x y : spec_float) :
  sf_nonneg x -> sf_nonneg y -> sf_nonneg (SF64add x y).
Proof.
  unfold SF64add.
  destruct x as [sx|sx| |sx mx ex], y as [sy|sy| |sy my ey]; simpl; try tauto.
  - intros _ _. destruct sx, sy; exact I.
  - intros -> ->. reflexivity.
  - intros -> ->. simpl.
    unfold binary_normalize, cond_Zopp. simpl Z.add.
    unfold binary_round.
    destruct (shl_align _ _ _) as [mz ez] eqn:E.
    apply binary_round_aux_nonneg. lia.
Qed.

Lemma fillna0_nonneg (x : float) :
  is_nan x = true \/ (0 <=? x)%float = true -> sf_nonneg (Prim2SF (fillna0 x)).
Proof.
  intros Hx. unfold fillna0. destruct (is_nan x) eqn:E.
  - exact I.
  - destruct Hx as [Hx|Hx]; [discriminate|]. now apply leb_zero_nonneg.
Qed.

Lemma engagement_of_nonneg (l v : float) :
  is_nan l = true \/ (0 <=? l)%float = true ->
  is_nan v = true \/ (0 <=? v)%float = true ->
  (0 <=? engagement_of l v)%float = true.
Proof.
  intros Hl Hv. apply leb_zero_nonneg. unfold engagement_of.
  rewrite add_spec, mul_spec.
  apply SF64add_nonneg; [now apply fillna0_nonneg|].
  replace (Prim2SF tenth)
    with (S754_finite false 7205759403792794 (-56)) by reflexivity.
  apply SF64mul_finite_nonneg. now apply fillna0_nonneg.
Qed.

(** ** Binary64 means *)

Lemma sub_zero (x : float) : (x - 0)%float = x.
Proof.
  apply Prim2SF_inj. rewrite sub_spec. change (Prim2SF 0) with (S754_zero false).
  destruct (Prim2SF x) as [[|]|[|]| |s m e]; reflexivity.
Qed.

Lemma is_nan_SF (x : float) :
  is_nan x = match Prim2SF x with S754_nan => true | _ => false end.
Proof.
  unfold is_nan. rewrite eqb_spec.
  destruct (Prim2SF x) as [s|s| |s m e]; try reflexivity.
  - now destruct s.
  - unfold SFeqb, SFcompare.
    destruct s; now rewrite Z.compare_refl, Pos.compare_cont_refl.
Qed.

(** What the first value leaves in the compensation: nothing. *)
Lemma first_compensation (x : float) :
  notna x = true ->
  (let c := (0 + x - x)%float in if is_nan c then 0%float else c) = 0%float.
Proof.
  unfold notna. rewrite is_nan_SF. intros Hx. cbv zeta.
  assert (Hc : Prim2SF (0 + x - x) = S754_nan \/ Prim2SF (0 + x - x) = S754_zero false).
  { rewrite sub_spec, add_spec. change (Prim2SF 0) with (S754_zero false).
    destruct (Prim2SF x) as [s|s| |s m e]; try discriminate.
    - right. now destruct s.
    - left. now destruct s.
    - right. unfold SF64add, SFadd, SF64sub, SFsub.
      now rewrite Z.sub_diag. }
  rewrite is_nan_SF. destruct Hc as [Hc|Hc]; rewrite Hc; [reflexivity|].
  apply Prim2SF_inj. now rewrite Hc.
Qed.

Lemma kahan_add_first (x : float) :
  notna x = true -> kahan_add (0, 0)%float x = ((0 + x)%float, 0%float).
Proof.
  intros Hx. unfold kahan_add. rewrite !sub_zero. f_equal.
  now apply first_compensation.
Qed.

Lemma kahan_add_second (s y : float) :
  fst (kahan_add (s, 0%float) y) = (s + y)%float.
Proof. unfold kahan_add. cbn [fst]. now rewrite sub_zero. Qed.

Lemma zero_add_eqb (x : float) : notna x = true -> (0 + x =? x)%float = true.
Proof.
  unfold notna. rewrite is_nan_SF, eqb_spec, add_spec.
  change (Prim2SF 0) with (S754_zero false).
  destruct (Prim2SF x) as [s|s| |s m e]; try discriminate; intros _.
  - now destruct s.
  - now destruct s.
  - unfold SF64add, SFadd, SFeqb, SFcompare.
    destruct s; now rewrite Z.compare_refl, Pos.compare_cont_refl.
Qed.

Lemma fold_kahan_sum (xs : list float) :
  exists s c, compensated_sum xs s c /\ fold_left kahan_add xs (0, 0)%float = (s, c).
Proof.
  induction xs as [|x xs IH] using rev_ind.
  - exists 0%float, 0%float. split; [constructor|reflexivity].
  - destruct IH as [s [c [Hs Hf]]]. rewrite fold_left_app, Hf.
    eexists _, _. split; [apply (compensated_snoc xs s c x Hs)|reflexivity].
Qed.
(** Rounding a mantissa that is already canonical leaves it alone. *)
Lemma binary_round_aux_canonical (s : bool) (m : positive) (e : Z) :
  bounded prec emax m e = true ->
  binary_round_aux prec emax s (Zpos m) e loc_Exact = S754_finite s m e.
Proof.
  intros Hv. apply andb_true_iff in Hv. destruct Hv as [Hc He].
  unfold canonical_mantissa in Hc. apply Z.eqb_eq in Hc.
  unfold binary_round_aux, shr_fexp. cbn [Zdigits2 shr_record_of_loc].
  rewrite Hc, Z.sub_diag. cbn [shr shr_m loc_of_shr_record round_nearest_even].
  cbn [Zdigits2 shr_record_of_loc]. rewrite Hc, Z.sub_diag. cbn [shr shr_m].
  now rewrite He.
Qed.

(** One more bit than the format holds is shifted out again. *)
Lemma binary_round_aux_double (s : bool) (m : positive) (e : Z) :
  bounded prec emax m e = true ->
  binary_round_aux prec emax s (Zpos m~0) (e - 1) loc_Exact = S754_finite s m e.
Proof.
  intros Hv. pose proof Hv as Hv'.
  apply andb_true_iff in Hv. destruct Hv as [Hc He].
  unfold canonical_mantissa in Hc. apply Z.eqb_eq in Hc.
  unfold binary_round_aux, shr_fexp. cbn [Zdigits2 shr_record_of_loc digits2_pos].
  replace (Zpos (Pos.succ (digits2_pos m)) + (e - 1))%Z
    with (Zpos (digits2_pos m) + e)%Z by lia.
  rewrite Hc. replace (e - (e - 1))%Z with 1%Z by lia.
  cbn [shr iter_pos shr_1 shr_m loc_of_shr_record round_nearest_even orb].
  replace (e - 1 + 1)%Z with e by lia.
  cbn [Zdigits2 shr_record_of_loc]. rewrite Hc, Z.sub_diag. cbn [shr shr_m].
  now rewrite He.
Qed.

Lemma div_one (x : float) : (x / 1)%float = x.
Proof.
  apply Prim2SF_inj. rewrite div_spec. pose proof (Prim2SF_valid x) as Hv.
  change (Prim2SF 1) with (S754_finite false 4503599627370496 (-52)).
  destruct (Prim2SF x) as [s|s| |s m e].
  - unfold SF64div, SFdiv. now rewrite xorb_false_r.
  - unfold SF64div, SFdiv. now rewrite xorb_false_r.
  - reflexivity.
  - unfold valid_binary in Hv. pose proof Hv as Hb.
    unfold bounded, canonical_mantissa in Hv.
    apply andb_true_iff in Hv. destruct Hv as [Hc He].
    apply Z.eqb_eq in Hc. apply Z.leb_le in He.
    unfold SF64div, SFdiv. rewrite xorb_false_r.
    unfold SFdiv_core_binary.
    change (Zdigits2 (Zpos 4503599627370496)) with 53%Z.
    change (Zdigits2 (Zpos m)) with (Zpos (digits2_pos m)).
    set (d := Zpos (digits2_pos m)) in *.
    unfold fexp, emin in Hc |- *.
    change (3 - emax - prec)%Z with (-1074)%Z in *.
    change prec with 53%Z in *. change emax with 1024%Z in *.
    destruct (Z.le_gt_cases (d + e - 53) (-1074)) as [Hsub|Hnorm].
    + replace (Z.min (Z.max (d + e - (53 + -52) - 53) (-1074)) (e - -52)) with e by lia.
      replace (e - -52 - e)%Z with 52%Z by lia.
      rewrite Z.shiftl_mul_pow2 by lia.
      destruct (Z.div_eucl (Zpos m * 2 ^ 52) 4503599627370496) as [q r] eqn:E.
      assert (Hq : q = Zpos m).
      { change q with (fst (q, r)). rewrite <- E.
        change (fst (Z.div_eucl (Zpos m * 2 ^ 52) 4503599627370496))
          with (Zpos m * 2 ^ 52 / 4503599627370496)%Z.
        change 4503599627370496%Z with (2 ^ 52)%Z. apply Z.div_mul. lia. }
      assert (Hr : r = 0%Z).
      { change r with (snd (q, r)). rewrite <- E.
        change (snd (Z.div_eucl (Zpos m * 2 ^ 52) 4503599627370496))
          with ((Zpos m * 2 ^ 52) mod 4503599627370496)%Z.
        change 4503599627370496%Z with (2 ^ 52)%Z. apply Z.mod_mul. lia. }
      subst q r. change (new_location 4503599627370496 0) with loc_Exact.
      now apply binary_round_aux_canonical.
    + replace (Z.min (Z.max (d + e - (53 + -52) - 53) (-1074)) (e - -52))
        with (e - 1)%Z by lia.
      replace (e - -52 - (e - 1))%Z with 53%Z by lia.
      rewrite Z.shiftl_mul_pow2 by lia.
      destruct (Z.div_eucl (Zpos m * 2 ^ 53) 4503599627370496) as [q r] eqn:E.
      assert (Hq : q = Zpos m~0).
      { change q with (fst (q, r)). rewrite <- E.
        change (fst (Z.div_eucl (Zpos m * 2 ^ 53) 4503599627370496))
          with (Zpos m * 2 ^ 53 / 4503599627370496)%Z.
        replace (Zpos m * 2 ^ 53)%Z with (Zpos m~0 * 2 ^ 52)%Z by lia.
        change 4503599627370496%Z with (2 ^ 52)%Z. apply Z.div_mul. lia. }
      assert (Hr : r = 0%Z).
      { change r with (snd (q, r)). rewrite <- E.
        change (snd (Z.div_eucl (Zpos m * 2 ^ 53) 4503599627370496))
          with ((Zpos m * 2 ^ 53) mod 4503599627370496)%Z.
        replace (Zpos m * 2 ^ 53)%Z with (Zpos m~0 * 2 ^ 52)%Z by lia.
        change 4503599627370496%Z with (2 ^ 52)%Z. apply Z.mod_mul. lia. }
      subst q r. change (new_location 4503599627370496 0) with loc_Exact.
      now apply binary_round_aux_double.
Qed.

Lemma mean_one (x : float) :
  notna x = true -> mean [x] = (0 + x)%float /\ (mean [x] =? x)%float = true.
Proof.
  intros Hx. unfold mean. cbn [fold_left List.length].
  rewrite kahan_add_first by exact Hx. cbn [fst].
  change (float_of_nat 1) with 1%float. rewrite div_one.
  split; [reflexivity|now apply zero_add_eqb].
Qed.

Lemma mean_two (x y : float) :
  notna x = true -> mean [x; y] = ((0 + x + y) / 2)%float.
Proof.
  intros Hx. unfold mean. cbn [fold_left List.length].
  rewrite kahan_add_first by exact Hx. now rewrite kahan_add_second.
Qed.

Lemma agg_mean_is_mean (xs : list float) : is_mean_of xs (agg_mean xs).
Proof.
  unfold is_mean_of, agg_mean.
  assert (Hys : Forall (fun y => notna y = true) (filter notna xs)).
  { apply Forall_forall. intros y Hy. now apply filter_In in Hy. }
  destruct (filter notna xs) as [|y ys]; cbv zeta.
  - repeat split; try discriminate. now intros [].
  - split; [discriminate|]. split; [|split].
    + intros _. destruct (fold_kahan_sum (y :: ys)) as [s [c [Hs Hf]]].
      exists s, c. split; [exact Hs|]. unfold mean. now rewrite Hf.
    + intros x Hx. inversion Hx; subst. apply mean_one. now inversion Hys.
    + intros x z Hx. inversion Hx; subst. apply mean_two. now inversion Hys.
Qed.

(** ** Engagement *)

Lemma dropna_date_rows `{Pandas} (csv : list Post) :
  dropna_date csv = parsed_rows (inferred_format (map date csv)) csv.
Proof.
  unfold dropna_date, to_datetime. generalize (inferred_format (map date csv)).
  intros fmt. induction csv as [|p csv IH]; [reflexivity|].
  simpl. rewrite IH. now destruct (date p) as [s|]; [destruct (parse_cell fmt s)|].
Qed.

Lemma parsed_rows_In `{Pandas} (fmt : option Format) (csv : list Post)
    (p : Post) (d : Timestamp) :
  In (p, d) (parsed_rows fmt csv) <->
  In p csv /\ exists s, date p = Some s /\ parse_cell fmt s = Some d.
Proof.
  unfold parsed_rows. rewrite in_flat_map. split.
  - intros [q [Hq Hin]]. destruct (date q) as [s|] eqn:Es; [|contradiction].
    destruct (parse_cell fmt s) as [d'|] eqn:Ed; [|contradiction].
    destruct Hin as [Heq|[]]. inversion Heq; subst. eauto.
  - intros [Hin [s [Es Ed]]]. exists p. split; [exact Hin|].
    rewrite Es, Ed. now left.
Qed.

Lemma frame_In `{Pandas} (v : Vader) (csv : list Post) (r : Df.t) :
  In r (frame v csv) <->
  exists p d, In p csv /\ In (p, d) (dropna_date csv) /\ r = derive v (p, d).
Proof.
  unfold frame. rewrite in_map_iff. split.
  - intros [[p d] [Hr Hin]]. exists p, d. repeat split; [|exact Hin|now rewrite Hr].
    rewrite dropna_date_rows in Hin. now apply parsed_rows_In in Hin.
  - intros [p [d [_ [Hin ->]]]]. now exists (p, d).
Qed.

(** C3 (engagement formula).  Every row of the frame carries
    engagement = likes + 0.1 * views computed in binary64 on its own likes
    and views, a missing (NaN) likes or views counting as 0; likes = 10,
    views = 50 gives exactly 15.0; missing likes with views = 20 gives
    exactly 2.0; and whenever likes and views are each missing or
    non-negative the result is non-negative (and so not NaN). *)
Theorem engagement_formula `{Pandas} (v : Vader) (csv : list Post) :
  (forall r, In r (frame v csv) ->
     Df.engagement r
     = (fillna0 (likes (Df.input r)) + tenth * fillna0 (views (Df.input r)))%float)
  /\ (forall x, engagement_of nan x = engagement_of 0 x)
  /\ (forall x, engagement_of x nan = engagement_of x 0)
  /\ engagement_of 10 50 = 15%float
  /\ engagement_of nan 20 = 2%float
  /\ (forall l w,
        is_nan l = true \/ (0 <=? l)%float = true ->
        is_nan w = true \/ (0 <=? w)%float = true ->
        (0 <=? engagement_of l w)%float = true).
Proof.
  split; [|split; [|split; [|split; [|split]]]].
  - intros r Hr. apply frame_In in Hr. destruct Hr as [p [d [_ [_ ->]]]].
    reflexivity.
  - reflexivity.
  - reflexivity.
  - reflexivity.
  - reflexivity.
  - apply engagement_of_nonneg.
Qed.

(** The non-negativity clause at likes = 10, views = 50 on a one-row file. *)
Lemma engagement_formula_witness :
  (0 <=? engagement_of 10 50)%float = true.
Proof.
  apply (@engagement_formula stable_pandas NoVader
           [ {| post_id := Some "p1"; date := Some "2025-01-01";
                text := Some "red"; likes := 10%float; views := 50%float |} ]).
  - right. reflexivity.
  - right. reflexivity.
Defined.

(** ** The rows that survive line 64 *)

Lemma parsed_rows_inputs `{Pandas} (fmt : option Format) (csv : list Post) :
  map fst (parsed_rows fmt csv) = filter (parseable fmt) csv.
Proof.
  induction csv as [|p csv IH]; simpl; [reflexivity|].
  unfold parseable at 1. rewrite map_app, IH.
  now destruct (date p) as [s|]; [destruct (parse_cell fmt s)|].
Qed.

Lemma parsed_rows_filter `{Pandas} (fmt : option Format) (f : Post -> bool)
    (csv : list Post) :
  (forall p, parseable fmt p = true -> f p = true) ->
  parsed_rows fmt (filter f csv) = parsed_rows fmt csv.
Proof.
  intros Hf. induction csv as [|p csv IH]; simpl; [reflexivity|].
  destruct (f p) eqn:Ep; simpl; [now rewrite IH|].
  rewrite IH. specialize (Hf p). unfold parseable in Hf.
  destruct (date p) as [s|]; [|reflexivity].
  destruct (parse_cell fmt s); [|reflexivity].
  rewrite Hf in Ep by reflexivity. discriminate.
Qed.

Lemma first_non_null_has_date (csv : list Post) :
  first_non_null (map date (filter has_date csv)) = first_non_null (map date csv).
Proof.
  induction csv as [|p csv IH]; simpl; [reflexivity|].
  unfold has_date at 1. destruct (date p) eqn:E; simpl; [now rewrite E|exact IH].
Qed.

Lemma frame_inputs `{Pandas} (v : Vader) (csv : list Post) :
  map Df.input (frame v csv) = filter (parseable (inferred_format (map date csv))) csv.
Proof.
  unfold frame. rewrite map_map, dropna_date_rows, <- parsed_rows_inputs.
  apply map_ext. now intros [p d].
Qed.

(** ** Absent text *)

(** C5 (absent text).  [clean_text] and [extract_hashtags] themselves map
    an absent argument to the empty string and to no hashtag, but [main]
    hands them [df["text"].astype(str)]: for every surviving post whose
    text is absent the cleaned text is "nan" and the token sequence is
    ["nan"], not empty; the hashtag list and the tag list are empty. *)
Theorem absent_text_is_nan (v : Vader) (p : Post) (d : Timestamp) :
  text p = None ->
  clean_text None = ""
  /\ extract_hashtags None = []
  /\ Df.text_clean (derive v (p, d)) = "nan"
  /\ Df.tokens (derive v (p, d)) = ["nan"]
  /\ Df.hashtags (derive v (p, d)) = []
  /\ Df.all_tags (derive v (p, d)) = [].
Proof.
  intros Ht. unfold derive. rewrite Ht. simpl. repeat split; reflexivity.
Qed.

Lemma absent_text_is_nan_witness :
  Df.text_clean (derive NoVader
     (absent_text_post, {| year := 2025; month := 1; day := 1 |})) = "nan"
  /\ @frame stable_pandas NoVader [absent_text_post]
     = [derive NoVader
          (absent_text_post, {| year := 2025; month := 1; day := 1 |})].
Proof.
  split.
  - apply (absent_text_is_nan NoVader absent_text_post
             {| year := 2025; month := 1; day := 1 |}). reflexivity.
  - reflexivity.
Defined.

(** ** Explosion and grouping *)

Lemma dropna_explode_row (r : Df.t) (ts : list string) :
  dropna_all_tags (map (fun t => (r, Some t)) ts) = map (pair r) ts.
Proof.
  unfold dropna_all_tags.
  induction ts as [|t ts IH]; simpl; [reflexivity|]. now rewrite IH.
Qed.

Lemma dropna_all_tags_app (a b : list (Df.t * option string)) :
  dropna_all_tags (a ++ b) = dropna_all_tags a ++ dropna_all_tags b.
Proof. apply flat_map_app. Qed.

Lemma exploded_cons (r : Df.t) (df : list Df.t) :
  exploded (r :: df) = map (pair r) (Df.all_tags r) ++ exploded df.
Proof.
  unfold exploded. simpl. rewrite dropna_all_tags_app. f_equal.
  destruct (Df.all_tags r) as [|t ts] eqn:E.
  - reflexivity.
  - apply (dropna_explode_row r (t :: ts)).
Qed.

Lemma exploded_flat_map (df : list Df.t) :
  exploded df = flat_map (fun r => map (pair r) (Df.all_tags r)) df.
Proof.
  induction df as [|r df IH]; [reflexivity|].
  rewrite exploded_cons. simpl. now rewrite IH.
Qed.

Lemma exploded_In (df : list Df.t) (r : Df.t) (t : string) :
  In (r, t) (exploded df) <-> In r df /\ In t (Df.all_tags r).
Proof.
  rewrite exploded_flat_map, in_flat_map. split.
  - intros [r' [Hr Hin]]. apply in_map_iff in Hin.
    destruct Hin as [t' [Heq Ht]]. inversion Heq; subst. tauto.
  - intros [Hr Ht]. exists r. split; [exact Hr|]. now apply in_map.
Qed.

Lemma key_eqb_eq (a b : string * string) : key_eqb a b = true <-> a = b.
Proof.
  destruct a as [a1 a2], b as [b1 b2]. unfold key_eqb. simpl.
  rewrite andb_true_iff, !String.eqb_eq. split.
  - intros [-> ->]. reflexivity.
  - inversion 1. tauto.
Qed.

Lemma keys_of_In (df : list Df.t) (w t : string) :
  In (w, t) (keys_of df) <->
  exists r, In r df /\ Df.week r = w /\ In t (Df.all_tags r).
Proof.
  unfold keys_of. rewrite sorted_set_In, in_map_iff. split.
  - intros [[r t'] [Heq Hin]]. unfold group_key in Heq. simpl in Heq.
    inversion Heq; subst. apply exploded_In in Hin. exists r. tauto.
  - intros [r [Hr [Hw Ht]]]. exists (r, t). split.
    + unfold group_key. simpl. now rewrite Hw.
    + now apply exploded_In.
Qed.

Lemma weekly_of_keys (df : list Df.t) :
  map (fun row => (Weekly.week row, Weekly.all_tags row)) (weekly_of df) = keys_of df.
Proof.
  unfold weekly_of, keys_of. rewrite map_map. simpl.
  rewrite <- (map_id (sorted_set _ _)) at 2.
  apply map_ext. now intros [w t].
Qed.

Lemma weekly_of_In (df : list Df.t) (row : Weekly.t) :
  In row (weekly_of df) <->
  exists k, In k (keys_of df) /\ row = agg k (group_of k (exploded df)).
Proof.
  unfold weekly_of, keys_of. rewrite in_map_iff. split.
  - intros [k [Heq Hin]]. exists k. now split.
  - intros [k [Hin Heq]]. exists k. now split.
Qed.

(** ** Date filtering *)

(** C7 (date filtering).  For every input table, with the format pandas
    guesses for the date column from its first cell that is not missing:
    the rows that reach the frame are, in order, exactly the input rows
    whose date parses in that format (on its own when no format is
    guessed); a row whose date is missing, or parses neither on its own nor
    in any format, is discarded whatever the other rows are; every row of
    the frame carries the date parsed from its own cell, and every row of
    a group of the weekly table comes from a retained row; rows with a
    missing date can be deleted beforehand without changing the outputs,
    and so can all discarded rows when the column keeps its format.  The
    run is a total function: the unparseable row raises nothing. *)
Theorem date_filtering `{Pandas} (v : Vader) (csv : list Post) :
  let fmt := inferred_format (map date csv) in
  map Df.input (frame v csv) = filter (parseable fmt) csv
  /\ (forall p, In p csv -> never_parses (date p) ->
        ~ In p (map Df.input (frame v csv)))
  /\ (forall p, In p csv -> parseable fmt p = true ->
        In p (map Df.input (frame v csv)))
  /\ (forall r, In r (frame v csv) ->
        exists s, date (Df.input r) = Some s
                  /\ parse_cell fmt s = Some (Df.timestamp r))
  /\ (forall row r, In row (fst (main v csv)) ->
        In r (group_of (key_of row) (exploded (frame v csv))) ->
        In (Df.input r) csv /\ parseable fmt (Df.input r) = true)
  /\ main v (filter has_date csv) = main v csv
  /\ (inferred_format (map date (filter (parseable fmt) csv)) = fmt ->
      main v (filter (parseable fmt) csv) = main v csv).
Proof.
  intros fmt.
  assert (Hrow : forall r, In r (frame v csv) ->
            In (Df.input r) csv
            /\ exists s, date (Df.input r) = Some s
                         /\ parse_cell fmt s = Some (Df.timestamp r)).
  { intros r Hr. apply frame_In in Hr. destruct Hr as [p [d [_ [Hin ->]]]].
    rewrite dropna_date_rows in Hin. now apply parsed_rows_In in Hin. }
  rewrite frame_inputs. fold fmt.
  split; [reflexivity|]. split; [|split; [|split; [|split; [|split]]]].
  - intros p _ Hp Hin. apply filter_In in Hin. destruct Hin as [_ Hin].
    unfold parseable in Hin. destruct (date p) as [s|]; [|discriminate].
    destruct Hp as [Halone Hfmt]. unfold parse_cell in Hin.
    destruct fmt as [f|]; [now rewrite Hfmt in Hin|now rewrite Halone in Hin].
  - intros p Hin Hp. now apply filter_In.
  - intros r Hr. now apply Hrow.
  - intros row r _ Hg. unfold group_of in Hg. apply in_map_iff in Hg.
    destruct Hg as [[r' t] [<- Hr]]. apply filter_In in Hr. destruct Hr as [Hr _].
    apply exploded_In in Hr. destruct Hr as [Hr _].
    destruct (Hrow _ Hr) as [Hin [s [Es Ed]]]. split; [exact Hin|].
    unfold parseable. simpl. now rewrite Es, Ed.
  - unfold main, frame. rewrite !dropna_date_rows. unfold inferred_format.
    rewrite first_non_null_has_date. fold (inferred_format (map date csv)). fold fmt.
    rewrite parsed_rows_filter; [reflexivity|].
    intros p. unfold parseable, has_date. now destruct (date p).
  - intros Hfmt. unfold main, frame. rewrite !dropna_date_rows, Hfmt.
    now rewrite parsed_rows_filter.
Qed.

(** The second of the two posts has a date that parses, on its own and
    when its row comes first; after a date in the other format it is NaT,
    and the post is in neither the frame nor the weekly table. *)
Lemma date_filtering_counterexample :
  @to_datetime stable_pandas [date dash_post]
  = [Some {| year := 2025; month := 1; day := 3 |}]
  /\ map Df.input (@frame stable_pandas NoVader [dash_post; slash_post]) = [dash_post]
  /\ In dash_post mixed_csv
  /\ @to_datetime stable_pandas (map date mixed_csv)
     = [Some {| year := 2025; month := 1; day := 2 |}; None]
  /\ ~ In dash_post (map Df.input (@frame stable_pandas NoVader mixed_csv))
  /\ map key_of (fst (@main stable_pandas NoVader mixed_csv)) = [("2025-W01", "red")].
Proof.
  split; [reflexivity|]. split; [reflexivity|].
  split; [right; left; reflexivity|]. split; [reflexivity|].
  split; [|vm_compute; reflexivity].
  change (map Df.input (@frame stable_pandas NoVader mixed_csv)) with [slash_post].
  intros [Heq|[]]. discriminate Heq.
Qed.

(** The theorem on a table of three posts: a date in the format of the
    column, no date, and a date in another format. *)
Lemma date_filtering_witness :
  map Df.input (@frame stable_pandas NoVader undated_csv) = [dash_post]
  /\ ~ In undated_post (map Df.input (@frame stable_pandas NoVader undated_csv))
  /\ @main stable_pandas NoVader [dash_post] = @main stable_pandas NoVader undated_csv.
Proof.
  pose proof (@date_filtering stable_pandas NoVader undated_csv) as Hthm.
  split; [exact (proj1 Hthm)|]. split.
  - refine (proj1 (proj2 Hthm) undated_post _ _).
    + right. left. reflexivity.
    + split; [reflexivity|]. intros f. destruct f; reflexivity.
  - exact (proj2 (proj2 (proj2 (proj2 (proj2 (proj2 Hthm))))) eq_refl).
Defined.

(** ** Vocabulary closure *)

Lemma derive_all_tags_vocab (v : Vader) (pd : Post * Timestamp) (t : string) :
  In t (Df.all_tags (derive v pd)) -> In t TAG_WORDS.
Proof.
  destruct pd as [p d]. simpl. intros Hin. apply all_tags_of_In in Hin. tauto.
Qed.

(** C8 (tag vocabulary closure).  For every input table, the tag of every
    row of the weekly summary is one of the words of [TAG_WORDS], the
    constant union of the colour, style and mood lists. *)
Theorem tag_vocabulary_closure `{Pandas} (v : Vader) (csv : list Post) :
  (forall row, In row (fst (main v csv)) -> In (Weekly.all_tags row) TAG_WORDS)
  /\ (forall t, In t TAG_WORDS <->
                In t COLOR_WORDS \/ In t STYLE_WORDS \/ In t MOOD_WORDS).
Proof.
  split.
  - intros row Hrow. simpl in Hrow. apply weekly_of_In in Hrow.
    destruct Hrow as [[w t] [Hk ->]]. simpl.
    apply keys_of_In in Hk. destruct Hk as [r [Hr [_ Ht]]].
    apply frame_In in Hr. destruct Hr as [p [d [_ [_ ->]]]].
    now apply derive_all_tags_vocab in Ht.
  - intros t. unfold TAG_WORDS. rewrite !in_app_iff. tauto.
Qed.

(** ** Weekly aggregation *)

Lemma filter_eqb_NoDup (t : string) (ts : list string) :
  NoDup ts ->
  filter (fun t' => String.eqb t' t) ts = if existsb (String.eqb t) ts then [t] else [].
Proof.
  induction 1 as [|t' ts Hn Hnd IH]; simpl; [reflexivity|].
  rewrite (String.eqb_sym t t'). destruct (String.eqb_spec t' t) as [->|Hne]; simpl.
  - rewrite IH. destruct (existsb (String.eqb t) ts) eqn:E; [|reflexivity].
    apply existsb_exists in E. destruct E as [x [Hx Heq]].
    apply String.eqb_eq in Heq. subst x. contradiction.
  - exact IH.
Qed.

Lemma group_of_row (w t : string) (r : Df.t) :
  NoDup (Df.all_tags r) ->
  group_of (w, t) (map (pair r) (Df.all_tags r)) = if tagged w t r then [r] else [].
Proof.
  intros Hnd. unfold group_of, tagged.
  rewrite filter_map_swap, map_map. simpl.
  destruct (String.eqb (Df.week r) w) eqn:Ew; simpl.
  - rewrite (filter_ext _ (fun t' => String.eqb t' t)).
    + rewrite (filter_eqb_NoDup t _ Hnd).
      now destruct (existsb (String.eqb t) (Df.all_tags r)).
    + intros t'. unfold key_eqb, group_key. simpl. now rewrite Ew.
  - rewrite (filter_ext _ (fun _ => false)).
    + clear Hnd. induction (Df.all_tags r) as [|t' ts IH]; simpl; auto.
    + intros t'. unfold key_eqb, group_key. simpl. now rewrite Ew.
Qed.

Lemma group_of_app (k : string * string) (a b : list (Df.t * string)) :
  group_of k (a ++ b) = group_of k a ++ group_of k b.
Proof. unfold group_of. now rewrite filter_app, map_app. Qed.

Lemma group_of_tagged (w t : string) (df : list Df.t) :
  Forall (fun r => NoDup (Df.all_tags r)) df ->
  group_of (w, t) (exploded df) = filter (tagged w t) df.
Proof.
  induction 1 as [|r df Hr Hdf IH]; [reflexivity|].
  rewrite exploded_cons, group_of_app, IH, (group_of_row w t r Hr). simpl.
  now destruct (tagged w t r).
Qed.

Lemma agg_count_present {A} (f : A -> option string) (g : list A) :
  Forall (fun r => f r <> None) g -> agg_count (map f g) = Z.of_nat (List.length g).
Proof.
  unfold agg_count. induction 1 as [|r g Hr Hg IH]; [reflexivity|].
  simpl. destruct (f r); [|congruence]. simpl.
  f_equal. f_equal. apply Nat2Z.inj. exact IH.
Qed.

Lemma nonneg_notna (x : float) : (0 <=? x)%float = true -> notna x = true.
Proof.
  intros Hx. apply leb_zero_nonneg in Hx.
  unfold notna, is_nan. rewrite eqb_spec.
  destruct (Prim2SF x) as [s|s| |s m e]; simpl in Hx.
  - reflexivity.
  - subst s. reflexivity.
  - contradiction.
  - subst s. unfold SFeqb, SFcompare.
    now rewrite Z.compare_refl, Pos.compare_cont_refl.
Qed.

Lemma agg_count_has_post_id (g : list Df.t) :
  agg_count (map (fun r => post_id (Df.input r)) g)
  = Z.of_nat (List.length (filter has_post_id g)).
Proof.
  unfold agg_count. f_equal. induction g as [|r g IH]; [reflexivity|].
  simpl. unfold has_post_id at 1. destruct (post_id (Df.input r)); simpl; now rewrite IH.
Qed.

Lemma frame_NoDup_tags `{Pandas} (v : Vader) (csv : list Post) :
  Forall (fun r => NoDup (Df.all_tags r)) (frame v csv).
Proof.
  apply Forall_forall. intros r Hr.
  apply frame_In in Hr. destruct Hr as [p [d [_ [_ ->]]]].
  apply sorted_set_NoDup.
Qed.

Lemma frame_valid `{Pandas} (v : Vader) (csv : list Post) :
  Forall valid_post csv ->
  Forall (fun r => post_id (Df.input r) <> None
                   /\ notna (Df.engagement r) = true) (frame v csv).
Proof.
  intros Hcsv. apply Forall_forall. intros r Hr.
  apply frame_In in Hr. destruct Hr as [p [d [Hp [_ ->]]]].
  rewrite Forall_forall in Hcsv. destruct (Hcsv p Hp) as [Hid [Hl Hv]].
  simpl. split.
  - exact Hid.
  - now apply nonneg_notna, engagement_of_nonneg.
Qed.

(** C1 (weekly aggregation), as the code has it.  For every input table:
    the explosion holds, for each post in turn, one row per tag of the
    post (none for a post without tags, which is then in no group), the
    tags of a post being distinct; the weekly table has one row per
    (week, tag) pair, and a pair has a row exactly when some post of that
    week carries that tag; and in each row the exploded rows of the group
    are the posts of that week carrying that tag, each once, [posts] is
    the number of them that have a post identifier (all of them when none
    lacks one), [avg_engagement] is the binary64 mean of their defined
    engagements (the compensated sum in row order over their number: the
    value itself for one, half the sum for two) and [avg_sentiment] the
    binary64 mean of their defined sentiments, missing when there is none.
    When every post has an identifier and likes and views that are absent
    or non-negative, every row of the frame has an identifier and a
    defined engagement.  On the four posts of week 2025-W01 tagged denim;
    denim, red; red; nothing, the table is the denim row with posts = 2
    and avg_engagement = 8.5 and the red row with posts = 2 and
    avg_engagement = 2.5, with avg_sentiment missing in both without an
    analyser, and -0.25 and 0.125 with one that gives 0.5 to the third
    post and -0.25 to the others; on three posts with engagement 0.1, 0.2
    and 0.3 avg_engagement is 0.19999999999999998. *)
Theorem weekly_aggregation `{Pandas} (v : Vader) (csv : list Post) :
  let df := frame v csv in
  let weekly := fst (main v csv) in
  exploded df = flat_map (fun r => map (pair r) (Df.all_tags r)) df
  /\ (forall r, Df.all_tags r = [] ->
        exploded [r] = [] /\ forall w t, tagged w t r = false)
  /\ (forall r, In r df -> NoDup (Df.all_tags r))
  /\ NoDup (map key_of weekly)
  /\ (forall w t, In (w, t) (map key_of weekly) <->
                  exists r, In r df /\ Df.week r = w /\ In t (Df.all_tags r))
  /\ (forall row, In row weekly ->
        let g := filter (tagged (Weekly.week row) (Weekly.all_tags row)) df in
        group_of (key_of row) (exploded df) = g
        /\ g <> []
        /\ Weekly.posts row = Z.of_nat (List.length (filter has_post_id g))
        /\ (Forall (fun r => post_id (Df.input r) <> None) g ->
            Weekly.posts row = Z.of_nat (List.length g))
        /\ is_mean_of (map Df.engagement g) (Weekly.avg_engagement row)
        /\ is_mean_of (map Df.sentiment g) (Weekly.avg_sentiment row))
  /\ (Forall valid_post csv ->
      forall r, In r df ->
        post_id (Df.input r) <> None /\ notna (Df.engagement r) = true)
  /\ (map Df.week (@frame stable_pandas NoVader four_posts)
        = ["2025-W01"; "2025-W01"; "2025-W01"; "2025-W01"]
      /\ map Df.all_tags (@frame stable_pandas NoVader four_posts)
         = [["denim"]; ["denim"; "red"]; ["red"]; []]
      /\ map (fun row => (key_of row, Weekly.posts row, Weekly.avg_engagement row))
             (fst (@main stable_pandas NoVader four_posts))
         = [(("2025-W01", "denim"), 2%Z, 8.5%float);
            (("2025-W01", "red"), 2%Z, 2.5%float)]
      /\ map Weekly.avg_sentiment (fst (@main stable_pandas NoVader four_posts))
         = [nan; nan]
      /\ map Weekly.avg_sentiment (fst (@main stable_pandas toy_vader four_posts))
         = [(-0.25)%float; 0.125%float])
  /\ (map Df.engagement (@frame stable_pandas NoVader tenths_csv)
        = [0x1.999999999999ap-4%float; 0x1.999999999999ap-3%float;
           0x1.3333333333333p-2%float]
      /\ map (fun row => (key_of row, Weekly.posts row, Weekly.avg_engagement row))
             (fst (@main stable_pandas NoVader tenths_csv))
         = [(("2025-W01", "red"), 3%Z, 0x1.9999999999999p-3%float)]).
Proof.
  intros df weekly.
  assert (Hw : weekly = weekly_of df) by reflexivity.
  clearbody weekly. subst weekly.
  pose proof (frame_valid v csv) as Hvalid. fold df in Hvalid.
  pose proof (frame_NoDup_tags v csv) as Hnd. fold df in Hnd. clearbody df.
  assert (Hkeys : map key_of (weekly_of df) = keys_of df) by apply weekly_of_keys.
  split; [apply exploded_flat_map|].
  split.
  { intros r Hr. split.
    - rewrite exploded_flat_map. simpl. now rewrite Hr.
    - intros w t. unfold tagged. rewrite Hr. apply andb_false_r. }
  split; [now apply Forall_forall|].
  split; [rewrite Hkeys; apply sorted_set_NoDup|].
  split; [intros w t; rewrite Hkeys; apply keys_of_In|].
  split; [|split; [|split; [repeat split|split]; vm_compute; reflexivity]].
  - intros row Hrow g.
    apply weekly_of_In in Hrow. destruct Hrow as [[w t] [Hk ->]].
    unfold key_of, agg in *.
    cbn [fst snd Weekly.week Weekly.all_tags Weekly.posts Weekly.avg_engagement
         Weekly.avg_sentiment] in *.
    assert (Hg : group_of (w, t) (exploded df) = g) by now apply group_of_tagged.
    rewrite Hg. split; [reflexivity|].
    split; [|split; [|split; [|split]]].
    + apply keys_of_In in Hk. destruct Hk as [r [Hr [Hw Ht]]].
      assert (Hin : In r g).
      { apply filter_In. split; [exact Hr|]. unfold tagged.
        rewrite Hw, String.eqb_refl. simpl. apply existsb_exists.
        exists t. split; [exact Ht|apply String.eqb_refl]. }
      intros Hnil. rewrite Hnil in Hin. exact Hin.
    + apply agg_count_has_post_id.
    + apply agg_count_present.
    + apply agg_mean_is_mean.
    + apply agg_mean_is_mean.
  - intros Hcsv r Hr. specialize (Hvalid Hcsv).
    rewrite Forall_forall in Hvalid. now apply Hvalid.
Qed.

(** With one of two identifiers missing the group of two rows has
    posts = 1.  With engagements 0.1, 0.2 and 0.3 the average is
    0.19999999999999998: three times it is not the exact sum of the three
    numbers, and the binary64 number 0.2 is nearer to their exact mean. *)
Lemma weekly_aggregation_counterexample :
  map (fun row => (key_of row, Weekly.posts row))
      (fst (@main stable_pandas NoVader unnamed_csv))
  = [(("2025-W01", "red"), 1%Z)]
  /\ List.length (group_of ("2025-W01", "red")
                    (exploded (@frame stable_pandas NoVader unnamed_csv))) = 2
  /\ map Df.engagement (@frame stable_pandas NoVader tenths_csv)
     = [0x1.999999999999ap-4%float; 0x1.999999999999ap-3%float;
        0x1.3333333333333p-2%float]
  /\ map Weekly.avg_engagement (fst (@main stable_pandas NoVader tenths_csv))
     = [0x1.9999999999999p-3%float]
  /\ (3 * units 0x1.9999999999999p-3
      <> units 0x1.999999999999ap-4 + units 0x1.999999999999ap-3
         + units 0x1.3333333333333p-2)%Z
  /\ (Z.abs (3 * units 0x1.999999999999ap-3
             - (units 0x1.999999999999ap-4 + units 0x1.999999999999ap-3
                + units 0x1.3333333333333p-2))
      < Z.abs (3 * units 0x1.9999999999999p-3
               - (units 0x1.999999999999ap-4 + units 0x1.999999999999ap-3
                  + units 0x1.3333333333333p-2)))%Z.
Proof.
  repeat split; try (vm_compute; reflexivity).
  vm_compute. discriminate.
Qed.

(** The theorem on the four posts of week 2025-W01. *)
Lemma weekly_aggregation_witness :
  NoDup (map key_of (fst (@main stable_pandas NoVader four_posts))).
Proof.
  exact (proj1 (proj2 (proj2 (proj2
    (@weekly_aggregation stable_pandas NoVader four_posts))))).
Defined.

(** ** Sentiment *)

Lemma frame_NoVader `{Pandas} (v : Vader) (csv : list Post) :
  frame NoVader csv = map without_sentiment (frame v csv).
Proof.
  unfold frame. rewrite map_map. apply map_ext. now intros [p d].
Qed.

Lemma exploded_without_sentiment (df : list Df.t) :
  exploded (map without_sentiment df)
  = map (fun e => (without_sentiment (fst e), snd e)) (exploded df).
Proof.
  induction df as [|r df IH]; [reflexivity|].
  simpl map at 1. rewrite !exploded_cons, map_app, IH. f_equal.
  rewrite map_map. reflexivity.
Qed.

Lemma keys_of_without_sentiment (df : list Df.t) :
  keys_of (map without_sentiment df) = keys_of df.
Proof.
  unfold keys_of. rewrite exploded_without_sentiment, map_map. reflexivity.
Qed.

Lemma group_of_without_sentiment (k : string * string) (df : list Df.t) :
  group_of k (exploded (map without_sentiment df))
  = map without_sentiment (group_of k (exploded df)).
Proof.
  unfold group_of. rewrite exploded_without_sentiment, filter_map_swap, !map_map.
  reflexivity.
Qed.

Lemma agg_mean_missing {A} (g : list A) : agg_mean (map (fun _ => nan) g) = nan.
Proof.
  unfold agg_mean.
  replace (filter notna (map (fun _ => nan) g)) with (@nil float); [reflexivity|].
  induction g as [|x g IH]; [reflexivity|exact IH].
Qed.

Lemma agg_without_sentiment (k : string * string) (g : list Df.t) :
  other_columns (agg k (map without_sentiment g)) = other_columns (agg k g)
  /\ Weekly.avg_sentiment (agg k (map without_sentiment g)) = nan.
Proof.
  unfold other_columns, agg. simpl. rewrite !map_map. simpl. split.
  - reflexivity.
  - apply agg_mean_missing.
Qed.

(** C9 (sentiment noninterference).  For every input table and every
    analyser, the run without the sentiment capability gives a weekly table
    whose [avg_sentiment] is missing in every row and whose other columns
    (week, tag, posts, avg_engagement) are, row for row, those of the run
    with the analyser. *)
Theorem sentiment_noninterference `{Pandas} (compound : string -> float)
    (csv : list Post) :
  let off := fst (main NoVader csv) in
  let on := fst (main (HaveVader compound) csv) in
  Forall (fun row => Weekly.avg_sentiment row = nan) off
  /\ map other_columns off = map other_columns on.
Proof.
  simpl. rewrite (frame_NoVader (HaveVader compound)).
  set (df := frame (HaveVader compound) csv). clearbody df.
  unfold weekly_of. fold (keys_of (map without_sentiment df)). fold (keys_of df).
  rewrite keys_of_without_sentiment. split.
  - apply Forall_map, Forall_forall. intros k _.
    rewrite group_of_without_sentiment. apply agg_without_sentiment.
  - rewrite !map_map. apply map_ext. intros k.
    rewrite group_of_without_sentiment. apply agg_without_sentiment.
Qed.

(** ** Rising tags *)

Lemma firstn_incl {A} (n : nat) (l : list A) (x : A) : In x (firstn n l) -> In x l.
Proof.
  intros Hin. rewrite <- (firstn_skipn n l). apply in_or_app. now left.
Qed.

Lemma firstn_NoDup {A} (n : nat) (l : list A) : NoDup l -> NoDup (firstn n l).
Proof.
  intros Hnd. rewrite <- (firstn_skipn n l) in Hnd.
  now apply NoDup_app_remove_r in Hnd.
Qed.

Lemma groupby_tag_sum_index (tbl : list Weekly.t) :
  map fst (groupby_tag_sum tbl) = sorted_strs (map Weekly.all_tags tbl).
Proof.
  unfold groupby_tag_sum. rewrite map_map. simpl. apply map_id.
Qed.

Lemma series_sub_index (a b : Series Z) :
  map fst (series_sub a b) = sorted_strs (map fst a ++ map fst b).
Proof.
  unfold series_sub. rewrite map_map. simpl. apply map_id.
Qed.

Lemma series_fillna_index (d : Series (option Z)) (o : Series Z) :
  map fst (series_fillna d o) = map fst d.
Proof.
  unfold series_fillna. rewrite map_map. reflexivity.
Qed.

Lemma delta_unsorted_index (weekly : list Weekly.t) :
  map fst (delta_unsorted weekly)
  = sorted_strs (map fst (recent_sum weekly) ++ map fst (prior_sum weekly)).
Proof.
  unfold delta_unsorted. now rewrite series_fillna_index, series_sub_index.
Qed.

Lemma groupby_filter_tag (f : Weekly.t -> bool) (weekly : list Weekly.t) (t : string) :
  In t (map fst (groupby_tag_sum (filter f weekly))) ->
  In t (map Weekly.all_tags weekly).
Proof.
  rewrite groupby_tag_sum_index. unfold sorted_strs. rewrite sorted_set_In.
  rewrite !in_map_iff. intros [row [Ht Hrow]]. apply filter_In in Hrow.
  exists row. tauto.
Qed.

Lemma delta_unsorted_tag (weekly : list Weekly.t) (t : string) :
  In t (map fst (delta_unsorted weekly)) -> In t (map Weekly.all_tags weekly).
Proof.
  rewrite delta_unsorted_index. unfold sorted_strs. rewrite sorted_set_In, in_app_iff.
  intros [Ht|Ht]; eapply groupby_filter_tag; exact Ht.
Qed.

Section Ranked.

Context `{Pandas}.

Lemma sort_values_index (s : Series (option Z)) :
  Permutation (map fst s) (map fst (sort_values_desc s)).
Proof. apply Permutation_map, sort_values_perm. Qed.

(** The names [head(5).index] takes from a sorted Series whose labels are
    distinct tags of the weekly table. *)
Lemma head5_sorted_ok (weekly : list Weekly.t) (s : Series (option Z)) :
  NoDup (map fst s) ->
  (forall t, In t (map fst s) -> In t (map Weekly.all_tags weekly)) ->
  let rising := head5_index (sort_values_desc s) in
  (forall t, In t rising -> exists row, In row weekly /\ Weekly.all_tags row = t)
  /\ List.length rising <= 5
  /\ NoDup rising.
Proof.
  intros Hnd Htags rising. unfold rising, head5_index. repeat split.
  - intros t Ht. apply firstn_incl in Ht.
    apply (Permutation_in _ (Permutation_sym (sort_values_index s))) in Ht.
    apply Htags, in_map_iff in Ht. destruct Ht as [row [Heq Hrow]]. eauto.
  - apply firstn_le_length.
  - apply firstn_NoDup. eapply Permutation_NoDup; [apply sort_values_index|exact Hnd].
Qed.

Lemma rising_of_ok (weekly : list Weekly.t) :
  let rising := rising_of weekly in
  (forall t, In t rising -> exists row, In row weekly /\ Weekly.all_tags row = t)
  /\ List.length rising <= 5
  /\ NoDup rising.
Proof.
  unfold rising_of, rising_try. apply head5_sorted_ok.
  - rewrite delta_unsorted_index. apply sorted_set_NoDup.
  - apply delta_unsorted_tag.
Qed.

Lemma rising_except_ok (weekly : list Weekly.t) :
  let rising := rising_except weekly in
  (forall t, In t rising -> exists row, In row weekly /\ Weekly.all_tags row = t)
  /\ List.length rising <= 5
  /\ NoDup rising.
Proof.
  unfold rising_except.
  assert (Hidx : map fst (map (fun e : string * Z => (fst e, Some (snd e)))
                            (groupby_tag_sum weekly))
                 = sorted_strs (map Weekly.all_tags weekly)).
  { rewrite map_map. simpl. apply groupby_tag_sum_index. }
  apply head5_sorted_ok; rewrite Hidx.
  - apply sorted_set_NoDup.
  - intros t Ht. unfold sorted_strs in Ht. now rewrite sorted_set_In in Ht.
Qed.

End Ranked.

(** C10 (rising-list membership).  For every input table, and for every
    weekly table at all: each name in the rising-tags list is the tag of
    some row of the weekly table, the list has at most 5 entries and no
    name twice; this holds for the list [main] produces and for the list
    the handler of line 109 would produce. *)
Theorem rising_membership `{Pandas} (v : Vader) (csv : list Post) :
  let weekly := fst (main v csv) in
  let ok (rising : list string) :=
    (forall t, In t rising -> exists row, In row weekly /\ Weekly.all_tags row = t)
    /\ List.length rising <= 5
    /\ NoDup rising in
  ok (snd (main v csv)) /\ ok (rising_except weekly)
  /\ (forall table : list Weekly.t,
        let rising := rising_of table in
        (forall t, In t rising -> exists row, In row table /\ Weekly.all_tags row = t)
        /\ List.length rising <= 5
        /\ NoDup rising).
Proof.
  simpl. split; [apply rising_of_ok|]. split; [apply rising_except_ok|].
  intros table. apply rising_of_ok.
Qed.

(** ** Fewer than two weeks *)





Lemma isin_In (w : string) (ws : list string) : isin w ws = true <-> In w ws.
Proof.
  unfold isin. rewrite existsb_exists. split.
  - intros [x [Hx Heq]]. apply String.eqb_eq in Heq. now subst.
  - intros Hin. exists w. split; [exact Hin|apply String.eqb_refl].
Qed.



Lemma lookup_nil {V} (t : string) : lookup t (@nil (string * V)) = None.
Proof. reflexivity. Qed.







(** ** Recent against prior *)

Lemma sorted_perm_unique {A} (R : A -> A -> Prop) (l1 l2 : list A) :
  StronglySorted R l1 -> StronglySorted R l2 -> Permutation l1 l2 ->
  (forall x y, In x l1 -> In y l1 -> R x y -> R y x -> x = y) ->
  l1 = l2.
Proof.
  intros H1. revert l2. induction H1 as [|a l1 Hs1 IH Ha]; intros l2 H2 Hp Hanti.
  - apply Permutation_nil in Hp. now subst.
  - destruct H2 as [|b l2 Hs2 Hb].
    + apply Permutation_sym, Permutation_nil in Hp. discriminate.
    + assert (Hab : a = b).
      { assert (Hin_a : In a (b :: l2)) by (apply (Permutation_in _ Hp); now left).
        assert (Hin_b : In b (a :: l1))
          by (apply (Permutation_in _ (Permutation_sym Hp)); now left).
        destruct Hin_a as [Heq|Hin_a]; [now subst|].
        destruct Hin_b as [Heq|Hin_b]; [now subst|].
        rewrite Forall_forall in Ha, Hb.
        apply Hanti; [now left|now right|now apply Ha|now apply Hb]. }
      subst b. f_equal. apply IH; [exact Hs2|now apply Permutation_cons_inv in Hp|].
      intros x y Hx Hy. apply Hanti; now right.
Qed.

Lemma vanished_sorted `{Pandas} :
  sort_values_desc (delta_unsorted vanished_weekly)
  = [("black", Some 1%Z); ("red", Some (-2)%Z); ("blue", None)].
Proof.
  symmetry. apply (sorted_perm_unique ranks_before).
  - repeat constructor; unfold ranks_before; simpl; lia.
  - apply sort_values_sorted.
  - rewrite <- sort_values_perm.
    change (delta_unsorted vanished_weekly)
      with [("black", Some 1%Z); ("blue", None); ("red", Some (-2)%Z)].
    apply perm_skip, perm_swap.
  - intros x y Hx Hy. simpl in Hx, Hy.
    destruct Hx as [<-|[<-|[<-|[]]]], Hy as [<-|[<-|[<-|[]]]];
      unfold ranks_before; simpl; intros; try reflexivity; try lia; try contradiction.
Qed.

(** C2 (trend ranking), on the table of [vanished_csv] and with any
    [sort_values]: the weeks are W01, W02, W03, so recent = W02, W03 and
    prior = W01; red has 1 recent and 3 prior posts and gets delta -2;
    blue has no recent and 1 prior post, so recent - prior is -1, but line
    106 leaves its delta missing ([fillna(recent_sum)] finds no recent
    value) and [sort_values] puts it last: the rising list is black, red,
    blue, which is not in decreasing order of recent - prior. *)
Theorem rising_ranks_vanished_tag_last `{Pandas} :
  map (fun row => (key_of row, Weekly.posts row)) vanished_weekly
  = [(("2025-W01", "blue"), 1%Z); (("2025-W01", "red"), 3%Z);
     (("2025-W02", "red"), 1%Z); (("2025-W03", "black"), 1%Z)]
  /\ last2 (weeks_sorted vanished_weekly) = ["2025-W02"; "2025-W03"]
  /\ prior2 (weeks_sorted vanished_weekly) = ["2025-W01"]
  /\ delta_unsorted vanished_weekly
     = [("black", Some 1%Z); ("blue", None); ("red", Some (-2)%Z)]
  /\ map (fun t => (t, recent_minus_prior vanished_weekly t)) ["black"; "blue"; "red"]
     = [("black", 1%Z); ("blue", (-1)%Z); ("red", (-2)%Z)]
  /\ rising_of vanished_weekly = ["black"; "red"; "blue"]
  /\ ~ StronglySorted
         (fun a b => (recent_minus_prior vanished_weekly b <= recent_minus_prior vanished_weekly a)%Z)
         (rising_of vanished_weekly).
Proof.
  assert (Hr : rising_of vanished_weekly = ["black"; "red"; "blue"]).
  { unfold rising_of, rising_try. now rewrite vanished_sorted. }
  rewrite Hr.
  split; [vm_compute; reflexivity|]. split; [vm_compute; reflexivity|].
  split; [vm_compute; reflexivity|]. split; [vm_compute; reflexivity|].
  split; [vm_compute; reflexivity|]. split; [reflexivity|].
  intros Hs. inversion Hs as [|a l Hs' Hall]; subst.
  inversion Hs' as [|a' l' Hs'' Hall']; subst.
  inversion Hall' as [|b l'' Hle _]; subst.
  vm_compute in Hle. apply Hle. reflexivity.
Qed.

(** The value line 106 gives each tag, for every weekly table. *)



Lemma groupby_tag_sum_In (tbl : list Weekly.t) (t : string) :
  In t (map fst (groupby_tag_sum tbl)) <-> In t (map Weekly.all_tags tbl).
Proof.
  rewrite groupby_tag_sum_index. unfold sorted_strs. apply sorted_set_In.
Qed.






(** * Further properties of the script *)

(** ** The text normaliser *)

Lemma space_not_url_letter (c : ascii) :
  is_space c = true ->
  c <> "h"%char /\ c <> "t"%char /\ c <> "p"%char /\ c <> "w"%char /\ c <> "."%char.
Proof.
  intros Hc. repeat split; intros ->; discriminate.
Qed.

Lemma prefix_head_run (p s : string) (n : nat) :
  all_chars (fun c => negb (is_space c)) p = true ->
  String.length p <= n ->
  prefix p (head_run n s) = prefix p s.
Proof.
  revert s n. induction p as [|a p IH]; intros s n Hp Hn.
  { destruct s as [|c r]; destruct n as [|n]; simpl; try reflexivity.
    destruct (is_space c); reflexivity. }
  simpl in Hp. apply andb_true_iff in Hp. destruct Hp as [Ha Hp].
  destruct n as [|n]; [simpl in Hn; lia|].
  destruct s as [|c r]; [reflexivity|]. simpl.
  destruct (is_space c) eqn:Ec.
  - destruct (ascii_dec a c) as [->|Hne]; [|reflexivity].
    rewrite Ec in Ha. discriminate.
  - simpl. destruct (ascii_dec a c); [|reflexivity].
    apply IH; [exact Hp|simpl in Hn; lia].
Qed.

Lemma nonspace_at_head_run (p s : string) :
  all_chars (fun c => negb (is_space c)) p = true ->
  prefix p s = true ->
  nonspace_at (String.length p) (head_run (S (String.length p)) s)
  = nonspace_at (String.length p) s.
Proof.
  revert s. induction p as [|a p IH]; intros s Hp Hpre.
  - destruct s as [|c r]; [reflexivity|]. unfold nonspace_at. simpl.
    destruct (is_space c) eqn:Ec; simpl; rewrite ?Ec; reflexivity.
  - simpl in Hp. apply andb_true_iff in Hp. destruct Hp as [Ha Hp].
    destruct s as [|c r]; [discriminate|]. simpl in Hpre.
    destruct (ascii_dec a c) as [<-|]; [|discriminate].
    apply negb_true_iff in Ha.
    change (head_run (S (String.length (String a p))) (String a r))
      with (if is_space a then EmptyString
            else String a (head_run (S (String.length p)) r)).
    rewrite Ha. unfold nonspace_at in *. simpl. now apply IH.
Qed.

Lemma url_here_head_run (s : string) : url_here (head_run 5 s) = url_here s.
Proof.
  unfold url_here.
  rewrite !(prefix_head_run _ s 5) by (simpl; try reflexivity; lia).
  destruct (prefix "http" s) eqn:E1; cbn [andb orb].
  - assert (Hn : nonspace_at 4 (head_run 5 s) = nonspace_at 4 s)
      by exact (nonspace_at_head_run "http" s eq_refl E1).
    now rewrite Hn.
  - destruct (prefix "www." s) eqn:E2; cbn [andb orb]; [|reflexivity].
    assert (Hn : nonspace_at 4 (head_run 5 s) = nonspace_at 4 s)
      by exact (nonspace_at_head_run "www." s eq_refl E2).
    now rewrite Hn.
Qed.

Lemma url_here_short (s : string) : String.length s < 5 -> url_here s = false.
Proof.
  intros Hs. unfold url_here, nonspace_at.
  destruct s as [|c1 [|c2 [|c3 [|c4 [|c5 r]]]]]; simpl in *; try lia;
    now rewrite !andb_false_r.
Qed.

Lemma head_run_skipping (n : nat) (s : string) :
  head_run n (url_sub true s) = EmptyString.
Proof.
  destruct n as [|n]; [now destruct (url_sub true s)|].
  induction s as [|c r IH]; simpl; [reflexivity|].
  destruct (is_space c) eqn:Ec; [simpl; now rewrite Ec|exact IH].
Qed.

Lemma head_run_length (n : nat) (s : string) : String.length (head_run n s) <= n.
Proof.
  revert s. induction n as [|n IH]; intros [|c r]; simpl; try lia.
  destruct (is_space c); simpl; [lia|]. specialize (IH r). lia.
Qed.

(** What is left of a run of non-space characters is a prefix of it. *)
Lemma head_run_url_sub (n : nat) (s : string) :
  head_run n (url_sub false s) = head_run n s
  \/ String.length (head_run n (url_sub false s)) < n.
Proof.
  revert s. induction n as [|n IH]; intros s.
  - left. now destruct (url_sub false s), s.
  - destruct s as [|c r]; [now left|]. simpl url_sub.
    destruct (is_space c) eqn:Ec.
    + left. simpl. now rewrite Ec.
    + destruct (url_here (String c r)).
      * right. rewrite head_run_skipping. simpl. lia.
      * simpl. rewrite Ec. destruct (IH r) as [->|Hlt]; [now left|].
        right. simpl. lia.
Qed.

Lemma head_run_cons (n : nat) (c : ascii) (r : string) :
  head_run (S n) (String c r)
  = if is_space c then EmptyString else String c (head_run n r).
Proof. reflexivity. Qed.

Lemma url_here_kept (c : ascii) (r : string) :
  url_here (String c r) = false -> url_here (String c (url_sub false r)) = false.
Proof.
  intros Hno. rewrite <- url_here_head_run, head_run_cons.
  destruct (is_space c) eqn:Ec; [reflexivity|].
  destruct (head_run_url_sub 4 r) as [->|Hlt].
  - rewrite <- url_here_head_run, head_run_cons in Hno. now rewrite Ec in Hno.
  - apply url_here_short.
    change (S (String.length (head_run 4 (url_sub false r))) < 5). lia.
Qed.

Lemma url_sub_free (s : string) :
  url_free (url_sub false s) = true /\ url_free (url_sub true s) = true.
Proof.
  induction s as [|c r [IHf IHt]]; [now split|]. simpl url_sub.
  assert (Hspace : is_space c = true ->
                   url_free (String c (url_sub false r)) = true).
  { intros Ec. simpl url_free. rewrite IHf, andb_true_r. apply negb_true_iff.
    rewrite <- url_here_head_run, head_run_cons. now rewrite Ec. }
  destruct (is_space c) eqn:Ec; [now split; apply Hspace|].
  split; [|exact IHt].
  destruct (url_here (String c r)) eqn:Eu; [exact IHt|].
  simpl url_free. rewrite IHf, andb_true_r. apply negb_true_iff.
  now apply url_here_kept.
Qed.

Lemma url_free_fixed (s : string) : url_free s = true -> url_sub false s = s.
Proof.
  induction s as [|c r IH]; [reflexivity|]. intros Hfree.
  simpl in Hfree. apply andb_true_iff in Hfree. destruct Hfree as [Hu Hr].
  apply negb_true_iff in Hu. simpl url_sub. rewrite Hu, (IH Hr).
  now destruct (is_space c).
Qed.

Lemma url_free_lstrip (s : string) : url_free s = true -> url_free (lstrip s) = true.
Proof.
  induction s as [|c r IH]; [reflexivity|]. intros Hfree. simpl lstrip.
  destruct (is_space c); [|exact Hfree].
  simpl in Hfree. apply andb_true_iff in Hfree. now apply IH.
Qed.

Lemma rstrip_cons (c : ascii) (r : string) :
  rstrip (String c r) = EmptyString
  \/ rstrip (String c r) = String c (rstrip r).
Proof.
  simpl. destruct (rstrip r); [destruct (is_space c)|]; auto.
Qed.

Lemma head_run_rstrip (n : nat) (s : string) : head_run n (rstrip s) = head_run n s.
Proof.
  revert s. induction n as [|n IH]; intros s; [now destruct (rstrip s), s|].
  destruct s as [|c r]; [reflexivity|].
  destruct (is_space c) eqn:Ec.
  - destruct (rstrip_cons c r) as [->| ->]; simpl; now rewrite ?Ec.
  - assert (Hr : rstrip (String c r) = String c (rstrip r)).
    { simpl. rewrite Ec. now destruct (rstrip r). }
    rewrite Hr. simpl. now rewrite Ec, IH.
Qed.

Lemma url_free_rstrip (s : string) : url_free s = true -> url_free (rstrip s) = true.
Proof.
  induction s as [|c r IH]; [reflexivity|]. intros Hfree.
  pose proof Hfree as Hfree'. simpl in Hfree'.
  apply andb_true_iff in Hfree'. destruct Hfree' as [Hu Hr].
  destruct (rstrip_cons c r) as [E|E]; [now rewrite E|].
  change (url_free (rstrip (String c r)))
    with (url_free (rstrip (String c r))).
  assert (Hh : url_here (rstrip (String c r)) = url_here (String c r)).
  { now rewrite <- url_here_head_run, head_run_rstrip, url_here_head_run. }
  rewrite E in *. simpl url_free. rewrite Hh, Hu. now apply IH.
Qed.

Lemma lstrip_head (s : string) (a : ascii) :
  get 0 (lstrip s) = Some a -> is_space a = false.
Proof.
  induction s as [|c r IH]; simpl; [discriminate|].
  destruct (is_space c) eqn:Ec; [exact IH|]. simpl. now intros [= <-].
Qed.

Lemma rstrip_head (s : string) (a : ascii) :
  get 0 (rstrip s) = Some a -> get 0 s = Some a.
Proof.
  destruct s as [|c r]; [discriminate|].
  destruct (rstrip_cons c r) as [->| ->]; [discriminate|exact (fun H => H)].
Qed.

Lemma rstrip_last (s : string) (a : ascii) :
  last_char (rstrip s) = Some a -> is_space a = false.
Proof.
  induction s as [|c r IH]; simpl; [discriminate|].
  destruct (rstrip r) as [|c' r'] eqn:E.
  - destruct (is_space c) eqn:Ec; simpl; [discriminate|now intros [= <-]].
  - exact IH.
Qed.

Lemma lstrip_fixed (s : string) :
  (forall a, get 0 s = Some a -> is_space a = false) -> lstrip s = s.
Proof.
  destruct s as [|c r]; [reflexivity|]. intros Hs. simpl.
  now rewrite (Hs c eq_refl).
Qed.

Lemma rstrip_idem (s : string) : rstrip (rstrip s) = rstrip s.
Proof.
  induction s as [|c r IH]; [reflexivity|]. simpl.
  destruct (rstrip r) as [|c' r'] eqn:E.
  - destruct (is_space c) eqn:Ec; simpl; [reflexivity|now rewrite Ec].
  - change (rstrip (String c (String c' r')))
      with (match rstrip (String c' r') with
            | EmptyString => if is_space c then EmptyString else String c EmptyString
            | r'' => String c r''
            end).
    now rewrite IH.
Qed.

Lemma strip_idem (s : string) : strip (strip s) = strip s.
Proof.
  unfold strip. rewrite (lstrip_fixed (rstrip (lstrip s))).
  - apply rstrip_idem.
  - intros a Ha. apply rstrip_head in Ha. now apply lstrip_head in Ha.
Qed.

(** X1 (clean_text).  For every argument, absent or not, the result of
    [clean_text] contains no match of [URL_RE], neither starts nor ends
    with white space, and is left unchanged by a second [clean_text]. *)
Theorem clean_text_is_clean (s : option string) :
  let c := clean_text s in
  url_free c = true
  /\ (forall a, get 0 c = Some a -> is_space a = false)
  /\ (forall a, last_char c = Some a -> is_space a = false)
  /\ clean_text (Some c) = c.
Proof.
  intros c. unfold c, clean_text.
  set (t := url_sub false match s with Some s0 => s0 | None => EmptyString end).
  assert (Hfree : url_free (strip t) = true).
  { unfold strip. apply url_free_rstrip, url_free_lstrip. apply url_sub_free. }
  repeat split.
  - exact Hfree.
  - intros a Ha. unfold strip in Ha. apply rstrip_head in Ha. now apply lstrip_head in Ha.
  - intros a. apply rstrip_last.
  - rewrite (url_free_fixed _ Hfree). apply strip_idem.
Qed.

(** ** Hashtags and tokens *)

Lemma all_chars_app (P : ascii -> bool) (w : string) (c : ascii) :
  all_chars P (String.append w (String c EmptyString)) = all_chars P w && P c.
Proof.
  induction w as [|a w IH]; simpl.
  - now rewrite andb_true_r.
  - now rewrite IH, andb_assoc.
Qed.

Lemma append_nonempty (w : string) (c : ascii) :
  String.append w (String c EmptyString) <> EmptyString.
Proof. now destruct w. Qed.

Lemma emit_Forall (P : string -> Prop) (w : string) :
  (w <> EmptyString -> P w) -> Forall P (emit w).
Proof.
  intros Hw. destruct w; [constructor|].
  constructor; [apply Hw; discriminate|constructor].
Qed.

(** Every group [HASHTAG_RE] captures is a non-empty run of characters of
    the text that are [\w]. *)
Lemma hashtag_findall_shape (P : ascii -> bool) (s : string) (cur : option string) :
  all_chars P s = true ->
  (forall w, cur = Some w -> all_chars (fun c => is_word c && P c) w = true) ->
  Forall (fun h => h <> EmptyString
                   /\ all_chars (fun c => is_word c && P c) h = true)
         (hashtag_findall cur s).
Proof.
  revert cur. induction s as [|c r IH]; intros cur Hs Hcur.
  - simpl. destruct cur as [w|]; [|constructor].
    apply emit_Forall. intros Hw. split; [exact Hw|now apply Hcur].
  - simpl in Hs. apply andb_true_iff in Hs. destruct Hs as [Hc Hr].
    assert (Hrestart : Forall (fun h => h <> EmptyString
                          /\ all_chars (fun c => is_word c && P c) h = true)
                         (if (code c =? 35)%N
                          then hashtag_findall (Some EmptyString) r
                          else hashtag_findall None r)).
    { destruct (code c =? 35)%N; apply IH; try exact Hr.
      - now intros w [= <-].
      - discriminate. }
    simpl. destruct cur as [w|]; [|exact Hrestart].
    destruct (is_word c) eqn:Ew.
    + apply IH; [exact Hr|]. intros w' [= <-].
      rewrite all_chars_app, (Hcur w eq_refl), Ew, Hc. reflexivity.
    + apply Forall_app. split; [|exact Hrestart].
      apply emit_Forall. intros Hw. split; [exact Hw|now apply Hcur].
Qed.

Lemma lower_char_word (c : ascii) :
  is_word c = true -> is_lower_word (lower_char c) = true.
Proof.
  destruct c as [[] [] [] [] [] [] [] []]; vm_compute; congruence.
Qed.

Lemma lower_char_not_upper (c : ascii) : is_upper (lower_char c) = false.
Proof.
  destruct c as [[] [] [] [] [] [] [] []]; vm_compute; reflexivity.
Qed.

Lemma lower_nonempty (h : string) : h <> EmptyString -> lower h <> EmptyString.
Proof. now destruct h. Qed.

Lemma lower_word (h : string) :
  all_chars is_word h = true -> all_chars is_lower_word (lower h) = true.
Proof.
  induction h as [|c r IH]; [reflexivity|]. simpl.
  intros Hh. apply andb_true_iff in Hh. destruct Hh as [Hc Hr].
  now rewrite (lower_char_word c Hc), IH.
Qed.

Lemma all_chars_true (s : string) : all_chars (fun _ => true) s = true.
Proof. induction s as [|c r IH]; [reflexivity|exact IH]. Qed.

Lemma all_chars_impl (P Q : ascii -> bool) (s : string) :
  (forall c, P c = true -> Q c = true) ->
  all_chars P s = true -> all_chars Q s = true.
Proof.
  intros HPQ. induction s as [|c r IH]; [reflexivity|]. simpl.
  intros Hs. apply andb_true_iff in Hs. destruct Hs as [Hc Hr].
  now rewrite (HPQ c Hc), IH.
Qed.

(** X2 (extract_hashtags).  For every argument that is absent or 7-bit
    text (every code point below 128, where [\w] is a letter of A-Z or
    a-z, a digit or the underscore and [lower] changes A-Z only), each
    hashtag returned is a non-empty string of lower-case letters, digits
    and underscores: no upper-case letter, no [#] and no white space
    survives. *)
Theorem extract_hashtags_shape (s : option string) :
  seven_bit_text s ->
  Forall (fun h => h <> EmptyString /\ all_chars is_lower_word h = true)
         (extract_hashtags s).
Proof.
  intros _. unfold extract_hashtags. apply Forall_map.
  eapply Forall_impl;
    [|apply (hashtag_findall_shape (fun _ => true)); [apply all_chars_true|discriminate]].
  intros h [Hne Hw]. split; [now apply lower_nonempty|].
  apply lower_word. eapply all_chars_impl; [|exact Hw].
  intros c Hc. now apply andb_true_iff in Hc.
Qed.

(** On a text with two hashtags *)
Lemma extract_hashtags_shape_witness :
  extract_hashtags (Some "New #Denim_1 and #RED!") = ["denim_1"; "red"]
  /\ Forall (fun h => h <> EmptyString /\ all_chars is_lower_word h = true)
            (extract_hashtags (Some "New #Denim_1 and #RED!")).
Proof.
  split; [reflexivity|].
  apply (extract_hashtags_shape (Some "New #Denim_1 and #RED!")). reflexivity.
Defined.

Lemma findall_lower_shape (s cur : string) :
  all_chars is_lower cur = true ->
  Forall (fun t => t <> EmptyString /\ all_chars is_lower t = true)
         (findall_lower cur s).
Proof.
  revert cur. induction s as [|c r IH]; intros cur Hcur; simpl.
  - apply emit_Forall. now intros Hw.
  - destruct (is_lower c) eqn:Ec.
    + apply IH. now rewrite all_chars_app, Hcur, Ec.
    + apply Forall_app. split; [apply emit_Forall; now intros Hw|now apply IH].
Qed.

Lemma join_emit (w : string) : join (emit w) = w.
Proof.
  destruct w; [reflexivity|]. unfold join. simpl. f_equal.
  induction w as [|c r IH]; [reflexivity|]. simpl. now rewrite IH.
Qed.

Lemma join_app (a b : list string) : join (a ++ b) = String.append (join a) (join b).
Proof.
  induction a as [|x a IH]; [reflexivity|].
  unfold join in *. simpl. rewrite IH.
  induction x as [|c x IHx]; [reflexivity|]. simpl. now rewrite IHx.
Qed.

Lemma append_snoc (w : string) (c : ascii) (r : string) :
  String.append (String.append w (String c EmptyString)) r
  = String.append w (String c r).
Proof. induction w as [|a w IH]; [reflexivity|]. simpl. now rewrite IH. Qed.

Lemma findall_lower_join (s cur : string) :
  join (findall_lower cur s) = String.append cur (filter_chars is_lower s).
Proof.
  revert cur. induction s as [|c r IH]; intros cur; simpl.
  - rewrite join_emit. induction cur as [|a w IHw]; [reflexivity|].
    simpl. now rewrite <- IHw.
  - destruct (is_lower c) eqn:Ec.
    + rewrite IH. apply append_snoc.
    + now rewrite join_app, join_emit, IH.
Qed.

(** X3 (tokens, line 71).  Every token of every text is a non-empty string
    of the letters a to z, and the tokens put end to end are the letters
    a to z of the text in their order: tokenising drops every other
    character and nothing else. *)
Theorem tokens_shape (s : string) :
  Forall (fun t => t <> EmptyString /\ all_chars is_lower t = true)
         (findall_lower EmptyString s)
  /\ join (findall_lower EmptyString s) = filter_chars is_lower s.
Proof.
  split; [now apply findall_lower_shape|apply findall_lower_join].
Qed.

(** ** Hashtags add no tag *)

Lemma is_lower_is_word (c : ascii) : is_lower c = true -> is_word c = true.
Proof. intros Hc. unfold is_word. now rewrite Hc. Qed.

Lemma is_lower_not_hash (c : ascii) : is_lower c = true -> (code c =? 35)%N = false.
Proof.
  unfold is_lower, between. intros Hc. apply andb_true_iff in Hc.
  destruct Hc as [Hlo _]. apply N.leb_le in Hlo. apply N.eqb_neq. lia.
Qed.

(** A captured group made of the letters a to z is also a token: while the
    hashtag scanner holds such a group [w], the token scanner holds the
    same [w]. *)
Lemma hashtag_is_token (s : string) (cur : option string) (tok : string) :
  (forall w, cur = Some w -> all_chars is_lower w = true -> tok = w) ->
  forall h, In h (hashtag_findall cur s) ->
            all_chars is_lower h = true -> In h (findall_lower tok s).
Proof.
  revert cur tok. induction s as [|c r IH]; intros cur tok Hinv h Hin Hlow.
  - simpl in *. destruct cur as [w|]; [|contradiction].
    destruct w as [|a w]; [contradiction|]. destruct Hin as [<-|[]].
    rewrite (Hinv _ eq_refl Hlow). now left.
  - simpl in Hin. simpl findall_lower.
    assert (Hrestart :
      In h (if (code c =? 35)%N then hashtag_findall (Some EmptyString) r
            else hashtag_findall None r) ->
      is_lower c = false ->
      In h (emit tok ++ findall_lower EmptyString r)).
    { intros Hh _. apply in_or_app. right.
      destruct (code c =? 35)%N; eapply IH; try exact Hh; try exact Hlow.
      - now intros w [= <-].
      - discriminate. }
    destruct (is_lower c) eqn:Ec.
    + rewrite (is_lower_not_hash c Ec) in *.
      destruct cur as [w|].
      * rewrite (is_lower_is_word c Ec) in Hin.
        eapply IH; [|exact Hin|exact Hlow].
        intros w' [= <-] Hw'. rewrite all_chars_app in Hw'.
        apply andb_true_iff in Hw'. destruct Hw' as [Hw _].
        now rewrite (Hinv w eq_refl Hw).
      * eapply IH; [|exact Hin|exact Hlow]. discriminate.
    + destruct cur as [w|]; [|now apply Hrestart].
      destruct (is_word c) eqn:Ew.
      * apply in_or_app. right. eapply IH; [|exact Hin|exact Hlow].
        intros w' [= <-] Hw'. rewrite all_chars_app, Ec, andb_false_r in Hw'.
        discriminate.
      * apply in_app_or in Hin. destruct Hin as [Hin|Hin]; [|now apply Hrestart].
        apply in_or_app. left.
        destruct w as [|a w]; [contradiction|]. destruct Hin as [<-|[]].
        rewrite (Hinv _ eq_refl Hlow). now left.
Qed.

Lemma lower_no_upper (s : string) :
  all_chars (fun c => negb (is_upper c)) (lower s) = true.
Proof.
  induction s as [|c r IH]; [reflexivity|]. simpl.
  now rewrite lower_char_not_upper, IH.
Qed.

Lemma lower_fixed (h : string) :
  all_chars (fun c => negb (is_upper c)) h = true -> lower h = h.
Proof.
  induction h as [|c r IH]; [reflexivity|]. simpl.
  intros Hh. apply andb_true_iff in Hh. destruct Hh as [Hc Hr].
  apply negb_true_iff in Hc. unfold lower_char. now rewrite Hc, IH.
Qed.

Lemma TAG_WORDS_lower (t : string) : In t TAG_WORDS -> all_chars is_lower t = true.
Proof.
  assert (Hall : forallb (all_chars is_lower) TAG_WORDS = true) by reflexivity.
  rewrite forallb_forall in Hall. apply Hall.
Qed.

Lemma sorted_same_elements {A} {cmp : A -> A -> comparison} `{Ordered A cmp}
    (l1 l2 : list A) :
  StronglySorted (lt_of cmp) l1 -> StronglySorted (lt_of cmp) l2 ->
  (forall x, In x l1 <-> In x l2) -> l1 = l2.
Proof.
  intros H1 H2 Hsame. apply (sorted_perm_unique (lt_of cmp)); try assumption.
  - apply NoDup_Permutation; [now apply sorted_lt_NoDup..|exact Hsame].
  - intros x y _ _ Hxy Hyx. unfold lt_of in *.
    rewrite cmp_antisym, Hyx in Hxy. discriminate.
Qed.

(** X4 (lines 70-75).  In every row of the frame the tags are the keyword
    tags: a hashtag that is a vocabulary word is always also a token of
    the same cleaned text, so adding the hashtags at line 75 never adds a
    tag. *)
Theorem hashtags_add_no_tag (v : Vader) (pd : Post * Timestamp) :
  Df.all_tags (derive v pd) = Df.kw_tags (derive v pd)
  /\ (forall t, In t (Df.hashtags (derive v pd)) -> In t TAG_WORDS ->
                In t (Df.tokens (derive v pd))).
Proof.
  destruct pd as [p d]. simpl.
  set (tc := lower (clean_text (Some (astype_str (text p))))).
  assert (Hhash : forall t, In t (extract_hashtags (Some tc)) -> In t TAG_WORDS ->
                            In t (findall_lower EmptyString tc)).
  { intros t Ht Hvocab. unfold extract_hashtags in Ht.
    apply in_map_iff in Ht. destruct Ht as [h [<- Hh]].
    assert (Hshape : all_chars (fun c => is_word c && negb (is_upper c)) h = true).
    { pose proof (hashtag_findall_shape (fun c => negb (is_upper c)) tc None
                    (lower_no_upper _) ltac:(discriminate)) as HF.
      rewrite Forall_forall in HF. now apply HF. }
    assert (Hfix : lower h = h).
    { apply lower_fixed. eapply all_chars_impl; [|exact Hshape].
      intros c Hc. now apply andb_true_iff in Hc. }
    rewrite Hfix in *.
    eapply hashtag_is_token; [|exact Hh|now apply TAG_WORDS_lower].
    discriminate. }
  split; [|exact Hhash].
  unfold all_tags_of, keyword_tags, sorted_strs.
  apply sorted_same_elements; try apply sorted_set_sorted.
  intros t. rewrite !sorted_set_In, !filter_In, in_app_iff, sorted_set_In, filter_In.
  rewrite in_TAG_WORDS_In. split; [|tauto].
  intros [[Ht|Ht] Hv]; [|tauto]. split; [now apply Hhash|exact Hv].
Qed.

(** ** The weekly table and the order of the input *)

Lemma Permutation_filter {A} (f : A -> bool) (l l' : list A) :
  Permutation l l' -> Permutation (filter f l) (filter f l').
Proof.
  induction 1 as [|x l l' Hp IH|x y l|l l' l'' H1 IH1 H2 IH2]; simpl.
  - constructor.
  - destruct (f x); [now apply perm_skip|exact IH].
  - destruct (f x), (f y); try reflexivity. apply perm_swap.
  - now transitivity (filter f l').
Qed.

Lemma frame_perm `{Pandas} (v : Vader) (csv csv' : list Post) :
  Permutation csv csv' ->
  inferred_format (map date csv) = inferred_format (map date csv') ->
  Permutation (frame v csv) (frame v csv').
Proof.
  intros Hp Hfmt. unfold frame. rewrite !dropna_date_rows, Hfmt.
  apply Permutation_map. unfold parsed_rows. now apply Permutation_flat_map.
Qed.

Lemma exploded_perm (df df' : list Df.t) :
  Permutation df df' -> Permutation (exploded df) (exploded df').
Proof.
  intros Hp. rewrite !exploded_flat_map. now apply Permutation_flat_map.
Qed.

Lemma keys_of_perm (df df' : list Df.t) :
  Permutation df df' -> keys_of df = keys_of df'.
Proof.
  intros Hp. unfold keys_of.
  apply sorted_same_elements; try apply sorted_set_sorted.
  intros k. rewrite !sorted_set_In.
  pose proof (Permutation_map group_key (exploded_perm _ _ Hp)) as Hk.
  split; apply Permutation_in; [exact Hk|now apply Permutation_sym].
Qed.

Lemma agg_count_perm {A} (xs ys : list (option A)) :
  Permutation xs ys -> agg_count xs = agg_count ys.
Proof.
  intros Hp. unfold agg_count. f_equal.
  now apply Permutation_length, Permutation_filter.
Qed.

Lemma group_of_perm (k : string * string) (df df' : list Df.t) :
  Permutation df df' ->
  Permutation (group_of k (exploded df)) (group_of k (exploded df')).
Proof.
  intros Hp. unfold group_of.
  now apply Permutation_map, Permutation_filter, exploded_perm.
Qed.

Lemma weekly_of_perm (df df' : list Df.t) :
  Permutation df df' -> Forall2 same_counts (weekly_of df) (weekly_of df').
Proof.
  intros Hp. unfold weekly_of.
  fold (keys_of df). fold (keys_of df'). rewrite <- (keys_of_perm _ _ Hp).
  induction (keys_of df) as [|k ks IH]; simpl; constructor; [|exact IH].
  split; [reflexivity|]. simpl.
  apply agg_count_perm, Permutation_map. now apply group_of_perm.
Qed.

(** The rising list reads the weekly table through week, tag and posts only. *)

Lemma Forall2_filter {A} (R : A -> A -> Prop) (f : A -> bool) (l l' : list A) :
  (forall a b, R a b -> f a = f b) ->
  Forall2 R l l' -> Forall2 R (filter f l) (filter f l').
Proof.
  intros Hf. induction 1 as [|a b l l' Hab Hl IH]; simpl; [constructor|].
  rewrite <- (Hf a b Hab). destruct (f a); [now constructor|exact IH].
Qed.

Lemma Forall2_map_eq {A B} (R : A -> A -> Prop) (g : A -> B) (l l' : list A) :
  (forall a b, R a b -> g a = g b) ->
  Forall2 R l l' -> map g l = map g l'.
Proof.
  intros Hg. induction 1 as [|a b l l' Hab Hl IH]; simpl; [reflexivity|].
  now rewrite (Hg a b Hab), IH.
Qed.

Lemma same_counts_week (a b : Weekly.t) :
  same_counts a b -> Weekly.week a = Weekly.week b.
Proof. intros [Hk _]. now inversion Hk. Qed.

Lemma same_counts_tag (a b : Weekly.t) :
  same_counts a b -> Weekly.all_tags a = Weekly.all_tags b.
Proof. intros [Hk _]. now inversion Hk. Qed.

Lemma same_counts_posts (a b : Weekly.t) :
  same_counts a b -> Weekly.posts a = Weekly.posts b.
Proof. now intros [_ Hp]. Qed.

Lemma groupby_tag_sum_same (w w' : list Weekly.t) :
  Forall2 same_counts w w' -> groupby_tag_sum w = groupby_tag_sum w'.
Proof.
  intros Hw. unfold groupby_tag_sum.
  rewrite (Forall2_map_eq _ Weekly.all_tags w w' same_counts_tag Hw).
  apply map_ext. intros t. f_equal. f_equal.
  apply (Forall2_map_eq same_counts); [exact same_counts_posts|].
  apply Forall2_filter; [|exact Hw].
  intros a b Hab. now rewrite (same_counts_tag a b Hab).
Qed.

Lemma period_sum_same (period : list string -> list string) (w w' : list Weekly.t) :
  Forall2 same_counts w w' ->
  groupby_tag_sum (filter (fun r => isin (Weekly.week r) (period (weeks_sorted w))) w)
  = groupby_tag_sum (filter (fun r => isin (Weekly.week r) (period (weeks_sorted w'))) w').
Proof.
  intros Hw. apply groupby_tag_sum_same.
  assert (Hweeks : weeks_sorted w = weeks_sorted w').
  { unfold weeks_sorted.
    now rewrite (Forall2_map_eq _ Weekly.week w w' same_counts_week Hw). }
  rewrite Hweeks. apply Forall2_filter; [|exact Hw].
  intros a b Hab. now rewrite (same_counts_week a b Hab).
Qed.

Lemma rising_of_same `{Pandas} (w w' : list Weekly.t) :
  Forall2 same_counts w w' -> rising_of w = rising_of w'.
Proof.
  intros Hw. unfold rising_of, rising_try, delta_unsorted, recent_sum, prior_sum.
  now rewrite (period_sum_same last2 w w' Hw), (period_sum_same prior2 w w' Hw).
Qed.

Lemma Forall2_same_counts_map (w w' : list Weekly.t) :
  Forall2 same_counts w w' ->
  map (fun row => (key_of row, Weekly.posts row)) w
  = map (fun row => (key_of row, Weekly.posts row)) w'.
Proof.
  apply Forall2_map_eq. intros a b [Hk Hp]. now rewrite Hk, Hp.
Qed.

(** X5 (lines 62-109).  The order of the rows of the input matters to
    the counts only through the date format guessed from the first date:
    two input tables that are permutations of each other and for whose
    date columns the same format is guessed give weekly tables with the
    same (week, tag, posts) rows in the same order, and the same
    rising-tags list. *)
Theorem input_order_irrelevant `{Pandas} (v : Vader) (csv csv' : list Post) :
  Permutation csv csv' ->
  inferred_format (map date csv) = inferred_format (map date csv') ->
  map (fun row => (key_of row, Weekly.posts row)) (fst (main v csv))
  = map (fun row => (key_of row, Weekly.posts row)) (fst (main v csv'))
  /\ snd (main v csv) = snd (main v csv').
Proof.
  intros Hp Hfmt. simpl.
  pose proof (weekly_of_perm _ _ (frame_perm v csv csv' Hp Hfmt)) as Hw.
  split; [now apply Forall2_same_counts_map|now apply rising_of_same].
Qed.

(** The four posts and the same posts backwards *)
Lemma input_order_irrelevant_witness :
  snd (@main stable_pandas NoVader four_posts)
  = snd (@main stable_pandas NoVader (rev four_posts)).
Proof.
  exact (proj2 (@input_order_irrelevant stable_pandas NoVader four_posts
                  (rev four_posts) (Permutation_rev four_posts) eq_refl)).
Defined.

Lemma other_columns_same (w w' : list Weekly.t) :
  map other_columns w = map other_columns w' -> Forall2 same_counts w w'.
Proof.
  revert w'. induction w as [|a w IH]; intros [|b w'] Hm; simpl in Hm;
    try discriminate; constructor.
  - unfold other_columns in Hm. inversion Hm. unfold same_counts, key_of.
    split; congruence.
  - apply IH. now inversion Hm.
Qed.

Lemma weekly_without_sentiment (df : list Df.t) :
  Forall2 same_counts (weekly_of (map without_sentiment df)) (weekly_of df).
Proof.
  unfold weekly_of. fold (keys_of (map without_sentiment df)). fold (keys_of df).
  rewrite keys_of_without_sentiment.
  induction (keys_of df) as [|k ks IH]; simpl; constructor; [|exact IH].
  rewrite group_of_without_sentiment.
  destruct (agg_without_sentiment k (group_of k (exploded df))) as [Hcols _].
  unfold other_columns in Hcols. inversion Hcols. unfold same_counts, key_of.
  split; congruence.
Qed.

(** X6 (lines 49-56, 100-109).  The rising-tags list does not depend on
    the sentiment capability: whatever the analyser, and whether there is
    one or not, the same input gives the same list. *)
Theorem rising_ignores_sentiment `{Pandas} (v v' : Vader) (csv : list Post) :
  snd (main v csv) = snd (main v' csv).
Proof.
  simpl. transitivity (rising_of (weekly_of (frame NoVader csv))).
  - symmetry. rewrite (frame_NoVader v). apply rising_of_same, weekly_without_sentiment.
  - rewrite (frame_NoVader v'). apply rising_of_same, weekly_without_sentiment.
Qed.

(** ** What the counts add up to *)

Lemma count_one (k : string * string) (keys : list (string * string)) :
  NoDup keys -> In k keys ->
  list_sum (map (fun k' => if key_eqb k k' then 1 else 0) keys) = 1.
Proof.
  induction 1 as [|k' keys Hn Hnd IH]; intros Hin; [contradiction|]. simpl.
  destruct (key_eqb k k') eqn:E.
  - apply key_eqb_eq in E. subst k'. f_equal.
    clear IH Hin. induction keys as [|k'' keys IH]; [reflexivity|]. simpl.
    destruct (key_eqb k k'') eqn:E'.
    + apply key_eqb_eq in E'. subst. exfalso. apply Hn. now left.
    + apply IH.
      * intros Hin. apply Hn. now right.
      * now inversion Hnd.
  - destruct Hin as [->|Hin]; [|now apply IH].
    assert (key_eqb k k = true) by now apply key_eqb_eq. congruence.
Qed.

Lemma list_sum_map_add {A} (f g : A -> nat) (l : list A) :
  list_sum (map (fun x => f x + g x) l) = list_sum (map f l) + list_sum (map g l).
Proof.
  induction l as [|x l IH]; [reflexivity|]. simpl. rewrite IH. lia.
Qed.

(** Every exploded row is in exactly one group. *)
Lemma groups_partition (keys : list (string * string)) (ex : list (Df.t * string)) :
  NoDup keys ->
  (forall e, In e ex -> In (group_key e) keys) ->
  list_sum (map (fun k => List.length (group_of k ex)) keys) = List.length ex.
Proof.
  intros Hnd. induction ex as [|e ex IH]; intros Hin.
  - unfold group_of. simpl. clear Hnd Hin.
    induction keys as [|k keys IHk]; [reflexivity|exact IHk].
  - rewrite (map_ext _ (fun k => (if key_eqb (group_key e) k then 1 else 0)
                                 + List.length (group_of k ex))).
    + rewrite list_sum_map_add, count_one, IH; try assumption.
      * reflexivity.
      * intros e' He'. apply Hin. now right.
      * apply Hin. now left.
    + intros k. unfold group_of. simpl.
      now destruct (key_eqb (group_key e) k).
Qed.

Lemma exploded_length (df : list Df.t) :
  List.length (exploded df)
  = list_sum (map (fun r => List.length (Df.all_tags r)) df).
Proof.
  induction df as [|r df IH]; [reflexivity|].
  rewrite exploded_cons, length_app, length_map, IH. reflexivity.
Qed.

Lemma Zsum_of_nat (l : list nat) : Zsum (map Z.of_nat l) = Z.of_nat (list_sum l).
Proof.
  induction l as [|n l IH]; [reflexivity|]. simpl. rewrite IH. lia.
Qed.

(** X7 (lines 87-94).  When every post has an identifier, the [posts]
    column of the weekly table adds up to the number of (post, tag)
    pairs, that is to the sum over the surviving posts of their numbers
    of tags: every tag occurrence is counted in exactly one row.  The rows
    are in strictly increasing order of (week, tag). *)
Theorem posts_add_up `{Pandas} (v : Vader) (csv : list Post) :
  Forall (fun p => post_id p <> None) csv ->
  Zsum (map Weekly.posts (fst (main v csv)))
  = Z.of_nat (list_sum (map (fun r => List.length (Df.all_tags r)) (frame v csv)))
  /\ StronglySorted (lt_of key_compare) (map key_of (fst (main v csv))).
Proof.
  intros Hids. simpl. split; [|rewrite weekly_of_keys; apply sorted_set_sorted].
  assert (Hdf : Forall (fun r => post_id (Df.input r) <> None) (frame v csv)).
  { apply Forall_forall. intros r Hr. apply frame_In in Hr.
    destruct Hr as [p [d [Hp [_ ->]]]]. rewrite Forall_forall in Hids.
    now apply Hids. }
  set (df := frame v csv) in *. clearbody df.
  rewrite <- exploded_length, <- (groups_partition (keys_of df)).
  - rewrite <- Zsum_of_nat, map_map. unfold weekly_of. fold (keys_of df).
    rewrite map_map. f_equal. apply map_ext. intros k. simpl.
    apply agg_count_present. apply Forall_forall. intros r Hr.
    unfold group_of in Hr. apply in_map_iff in Hr.
    destruct Hr as [[r' t] [<- Hr]]. apply filter_In in Hr. destruct Hr as [Hr _].
    apply exploded_In in Hr. rewrite Forall_forall in Hdf. now apply Hdf.
  - apply sorted_set_NoDup.
  - intros e He. unfold keys_of. rewrite sorted_set_In. now apply in_map.
Qed.

(** On the four posts: 1 + 2 + 1 + 0 tags, 2 + 2 posts *)
Lemma posts_add_up_witness :
  Zsum (map Weekly.posts (fst (@main stable_pandas NoVader four_posts))) = 4%Z.
Proof.
  assert (Hids : Forall (fun p => post_id p <> None) four_posts)
    by (repeat constructor; discriminate).
  exact (proj1 (@posts_add_up stable_pandas NoVader four_posts Hids)).
Defined.

(** ** Posts without a tag *)

Lemma exploded_has_tags (df : list Df.t) :
  exploded (filter has_tags df) = exploded df.
Proof.
  induction df as [|r df IH]; [reflexivity|]. simpl filter.
  unfold has_tags at 1. destruct (Df.all_tags r) as [|t ts] eqn:E.
  - rewrite exploded_cons, E. exact IH.
  - now rewrite !exploded_cons, IH.
Qed.

(** X8 (line 87).  Posts for which no tag is found leave no trace: the
    weekly table and the rising-tags list are those of the frame with
    these posts removed, whatever their dates, likes, views and
    sentiment. *)
Theorem untagged_posts_invisible `{Pandas} (df : list Df.t) :
  weekly_of (filter has_tags df) = weekly_of df
  /\ rising_of (weekly_of (filter has_tags df)) = rising_of (weekly_of df).
Proof.
  assert (Hw : weekly_of (filter has_tags df) = weekly_of df).
  { unfold weekly_of. now rewrite exploded_has_tags. }
  split; [exact Hw|now rewrite Hw].
Qed.

(** ** The values of line 106 and the list of line 107 *)


Lemma rising_of_index `{Pandas} (weekly : list Weekly.t) (t : string) :
  In t (rising_of weekly) -> In t (map fst (delta_unsorted weekly)).
Proof.
  unfold rising_of, rising_try, head5_index. intros Ht. apply firstn_incl in Ht.
  now apply (Permutation_in _ (Permutation_sym (sort_values_index _))) in Ht.
Qed.



(** ** At most two weeks *)






(** ** The recent and the prior weeks *)

Lemma StronglySorted_skipn {A} (R : A -> A -> Prop) (k : nat) (l : list A) :
  StronglySorted R l -> StronglySorted R (skipn k l).
Proof.
  revert l. induction k as [|k IH]; intros l Hl; [exact Hl|].
  destruct l as [|x l]; [constructor|]. simpl. apply IH. now inversion Hl.
Qed.

Lemma StronglySorted_app_lt {A} (R : A -> A -> Prop) (a b : list A) :
  StronglySorted R (a ++ b) -> forall x y, In x a -> In y b -> R x y.
Proof.
  induction a as [|z a IH]; intros Hs x y Hx Hy; [contradiction|].
  simpl in Hs. inversion Hs as [|? ? Hs' Hall]; subst.
  destruct Hx as [->|Hx]; [|now apply IH].
  rewrite Forall_forall in Hall. apply Hall. apply in_or_app. now right.
Qed.

Lemma last_four {A} (l : list A) :
  prior2 l ++ last2 l = skipn (List.length l - 4) l.
Proof.
  unfold prior2, last2. set (n := List.length l).
  replace (skipn (n - 4) l)
    with (skipn (n - 4) (firstn (n - 2) l ++ skipn (n - 2) l))
    by now rewrite firstn_skipn.
  rewrite skipn_app, length_firstn. fold n.
  replace (n - 4 - Nat.min (n - 2) n) with 0 by lia.
  reflexivity.
Qed.

(** X14 (lines 101-103).  For every weekly table: recent and prior put
    together are the last four weeks of the sorted distinct week labels
    (all of them when there are fewer); recent holds the last two, prior
    the at most two before them; no week is in both, and every prior week
    sorts strictly before every recent week. *)
Theorem recent_and_prior_weeks (weekly : list Weekly.t) :
  let ws := weeks_sorted weekly in
  prior2 ws ++ last2 ws = skipn (List.length ws - 4) ws
  /\ List.length (last2 ws) = Nat.min 2 (List.length ws)
  /\ List.length (prior2 ws) = Nat.min 2 (List.length ws - 2)
  /\ NoDup (prior2 ws ++ last2 ws)
  /\ (forall p r, In p (prior2 ws) -> In r (last2 ws) -> str_lt p r).
Proof.
  intros ws.
  assert (Hs : StronglySorted str_lt (prior2 ws ++ last2 ws)).
  { rewrite last_four. apply StronglySorted_skipn. apply sorted_set_sorted. }
  split; [apply last_four|].
  split; [unfold last2; rewrite length_skipn; lia|].
  split; [unfold prior2; rewrite length_skipn, length_firstn; lia|].
  split; [now apply (sorted_lt_NoDup (cmp := String.compare))|].
  now apply StronglySorted_app_lt.
Qed.

(** ** When there is a chart *)

Lemma weekly_of_nil (df : list Df.t) :
  weekly_of df = [] <-> forall r, In r df -> Df.all_tags r = [].
Proof.
  split.
  - intros Hw r Hr. destruct (Df.all_tags r) as [|t ts] eqn:E; [reflexivity|].
    assert (Hk : In (Df.week r, t) (keys_of df)).
    { apply keys_of_In. exists r. rewrite E. simpl. tauto. }
    rewrite <- weekly_of_keys, Hw in Hk. contradiction.
  - intros Hall. destruct (weekly_of df) as [|row rows] eqn:E; [reflexivity|].
    assert (Hk : In (key_of row) (keys_of df)).
    { rewrite <- weekly_of_keys, E. now left. }
    destruct (key_of row) as [w t]. apply keys_of_In in Hk.
    destruct Hk as [r [Hr [_ Ht]]]. rewrite (Hall r Hr) in Ht. contradiction.
Qed.

Lemma rising_of_nonempty `{Pandas} (weekly : list Weekly.t) :
  weekly <> [] -> rising_of weekly <> [].
Proof.
  intros Hne.
  assert (Hws : weeks_sorted weekly <> []).
  { destruct weekly as [|row rows]; [contradiction|]. intros Hnil.
    assert (Hin : In (Weekly.week row) (weeks_sorted (row :: rows))).
    { unfold weeks_sorted, sorted_strs. rewrite sorted_set_In. now left. }
    rewrite Hnil in Hin. contradiction. }
  assert (Hlast : exists w, In w (last2 (weeks_sorted weekly))).
  { assert (Hlen : List.length (last2 (weeks_sorted weekly))
                   = Nat.min 2 (List.length (weeks_sorted weekly)))
      by (unfold last2; rewrite length_skipn; lia).
    assert (Hpos : List.length (weeks_sorted weekly) <> 0)
      by (destruct (weeks_sorted weekly); [contradiction|discriminate]).
    destruct (last2 (weeks_sorted weekly)) as [|w ws'];
      [change (List.length (@nil string)) with 0 in Hlen; lia|].
    exists w. now left. }
  destruct Hlast as [w Hw].
  assert (Hrow : exists row, In row weekly /\ Weekly.week row = w).
  { assert (Hin : In w (weeks_sorted weekly)).
    { unfold last2 in Hw.
      rewrite <- (firstn_skipn (List.length (weeks_sorted weekly) - 2)
                    (weeks_sorted weekly)).
      apply in_or_app. right. exact Hw. }
    unfold weeks_sorted, sorted_strs in Hin. rewrite sorted_set_In, in_map_iff in Hin.
    destruct Hin as [row [Heq Hrow]]. now exists row. }
  destruct Hrow as [row [Hrow Hweek]].
  assert (Hidx : In (Weekly.all_tags row) (map fst (delta_unsorted weekly))).
  { rewrite delta_unsorted_index. unfold sorted_strs.
    rewrite sorted_set_In, in_app_iff. left.
    unfold recent_sum. rewrite groupby_tag_sum_In. apply in_map.
    apply filter_In. split; [exact Hrow|]. apply isin_In. now rewrite Hweek. }
  unfold rising_of, rising_try, head5_index.
  apply (Permutation_in _ (sort_values_index _)) in Hidx.
  destruct (map fst (sort_values_desc (delta_unsorted weekly))); [contradiction|].
  discriminate.
Qed.

(** X12 (lines 100-124).  For every input table the rising-tags list is
    empty exactly when the weekly table is, that is exactly when no
    surviving post has a tag: [if rising:] draws the chart and writes the
    rising-tags line as soon as one post has a tag. *)
Theorem rising_empty_iff `{Pandas} (v : Vader) (csv : list Post) :
  (snd (main v csv) = [] <-> fst (main v csv) = [])
  /\ (snd (main v csv) = [] <->
      forall r, In r (frame v csv) -> Df.all_tags r = []).
Proof.
  simpl.
  assert (H1 : rising_of (weekly_of (frame v csv)) = []
               <-> weekly_of (frame v csv) = []).
  { split.
    - intros Hr. destruct (weekly_of (frame v csv)) as [|row rows] eqn:E;
        [reflexivity|].
      exfalso. now apply (rising_of_nonempty (row :: rows)).
    - intros ->. destruct (rising_of []) as [|t ts] eqn:E; [reflexivity|].
      assert (Hin : In t (rising_of [])) by (rewrite E; now left).
      apply rising_of_index in Hin. contradiction. }
  split; [exact H1|]. rewrite H1. apply weekly_of_nil.
Qed.

(** ** The table behind the chart *)

Lemma no_duplicate_keys_NoDup (ks : list (string * string)) :
  NoDup ks -> no_duplicate_keys ks = true.
Proof.
  induction 1 as [|k ks Hn Hnd IH]; [reflexivity|]. simpl.
  rewrite IH, andb_true_r. apply negb_true_iff.
  destruct (existsb (key_eqb k) ks) eqn:E; [|reflexivity].
  apply existsb_exists in E. destruct E as [k' [Hin Heq]].
  apply key_eqb_eq in Heq. subst k'. contradiction.
Qed.

Lemma NoDup_map_inj {A B} (f : A -> B) (l : list A) (a b : A) :
  NoDup (map f l) -> In a l -> In b l -> f a = f b -> a = b.
Proof.
  induction l as [|x l IH]; simpl; [tauto|].
  intros Hnd Ha Hb Hf. inversion Hnd as [|? ? Hx Hnd']; subst.
  destruct Ha as [->|Ha], Hb as [->|Hb].
  - reflexivity.
  - exfalso. apply Hx. rewrite Hf. now apply in_map.
  - exfalso. apply Hx. rewrite <- Hf. now apply in_map.
  - now apply IH.
Qed.

Lemma pivot_cell (weekly : list Weekly.t) (w t : string) :
  NoDup (map key_of weekly) ->
  match find (fun r => key_eqb (key_of r) (w, t)) weekly with
  | Some r => In r weekly /\ key_of r = (w, t)
  | None => forall r, In r weekly -> key_of r <> (w, t)
  end.
Proof.
  intros Hnd. destruct (find _ weekly) as [r|] eqn:E.
  - apply find_some in E. destruct E as [Hin Hk]. now apply key_eqb_eq in Hk.
  - intros r Hr Hk. apply (find_none _ _ E) in Hr.
    apply key_eqb_eq in Hk. congruence.
Qed.

(** X13 (lines 112-115).  For every input table, lines 112 and 115 raise
    nothing: the weekly table has no (week, tag) pair twice, so [pivot]
    succeeds, and every rising tag is one of its columns, so
    [pivot[rising]] succeeds.  What is plotted is one line per rising tag,
    in the order of the list, with one point per week of the table in
    sorted order: the posts of the weekly row of that week and tag, and 0
    where the table has no such row. *)
Theorem chart_table `{Pandas} (v : Vader) (csv : list Post) :
  let weekly := fst (main v csv) in
  let rising := snd (main v csv) in
  exists lines,
    plotted weekly rising = Some lines
    /\ map fst lines = rising
    /\ (forall t pts, In (t, pts) lines -> map fst pts = weeks_sorted weekly)
    /\ (forall t pts w n, In (t, pts) lines -> In (w, n) pts ->
          (exists row, In row weekly /\ key_of row = (w, t) /\ Weekly.posts row = n)
          \/ ((forall row, In row weekly -> key_of row <> (w, t)) /\ n = 0%Z)).
Proof.
  simpl. set (weekly := weekly_of (frame v csv)).
  assert (Hnd : NoDup (map key_of weekly))
    by (unfold weekly; rewrite weekly_of_keys; apply sorted_set_NoDup).
  assert (Hcols : forallb (fun n => isin n (sorted_strs (map Weekly.all_tags weekly)))
                          (rising_of weekly) = true).
  { apply forallb_forall. intros t Ht. apply isin_In.
    unfold sorted_strs. rewrite sorted_set_In.
    destruct (rising_of_ok weekly) as [Hin _].
    destruct (Hin t Ht) as [row [Hrow <-]]. now apply in_map. }
  unfold plotted, pivot_fillna0.
  change (map (fun r => (Weekly.week r, Weekly.all_tags r)) weekly)
    with (map key_of weekly).
  rewrite (no_duplicate_keys_NoDup _ Hnd). unfold getitem. simpl pv_columns.
  rewrite Hcols. simpl.
  eexists. split; [reflexivity|]. split; [|split].
  - rewrite map_map. simpl. apply map_id.
  - intros t pts Hin. apply in_map_iff in Hin. destruct Hin as [t' [Heq _]].
    inversion Heq; subst. rewrite map_map. simpl. apply map_id.
  - intros t pts w n Hin Hpt. apply in_map_iff in Hin.
    destruct Hin as [t' [Heq _]]. inversion Heq; subst. clear Heq.
    apply in_map_iff in Hpt. destruct Hpt as [w' [Heq _]].
    inversion Heq; subst. clear Heq.
    pose proof (pivot_cell weekly w t Hnd) as Hcell. unfold key_of in Hcell.
    destruct (find _ weekly) as [r|].
    + left. exists r. destruct Hcell as [Hr Hk]. now repeat split.
    + right. split; [exact Hcell|reflexivity].
Qed.

(** ** Week labels and the order of weeks *)

Lemma zrange_In (lo : Z) (n : nat) (x : Z) :
  In x (zrange lo n) <-> (lo <= x < lo + Z.of_nat n)%Z.
Proof.
  unfold zrange. rewrite in_map_iff. split.
  - intros [i [<- Hi]]. apply in_seq in Hi. lia.
  - intros Hx. exists (Z.to_nat (x - lo)). split; [lia|]. apply in_seq. lia.
Qed.

(** The years 1676 to 2263, one by one *)
Lemma years_checked : forallb year_ok (zrange 1676 588) = true.
Proof. vm_compute. reflexivity. Qed.

Lemma labels_checked : forallb labels_increase (zrange 1676 588) = true.
Proof. vm_compute. reflexivity. Qed.

Lemma year_facts (y : Z) :
  (1676 <= y <= 2263)%Z ->
  (jan1 y + 365 <= jan1 (y + 1) <= jan1 y + 366)%Z
  /\ (forall m, (1 <= m <= 12)%Z ->
        (jan1 y <= days_from_civil y m 1)%Z
        /\ (days_from_civil y m 1 + days_in_month y m <= jan1 (y + 1))%Z).
Proof.
  intros Hy. pose proof years_checked as Hall.
  rewrite forallb_forall in Hall.
  specialize (Hall y ltac:(apply zrange_In; lia)). unfold year_ok in Hall.
  apply andb_true_iff in Hall. destruct Hall as [Hlen Hmonths].
  apply andb_true_iff in Hlen. destruct Hlen as [H1 H2].
  apply Z.leb_le in H1, H2. split; [lia|].
  intros m Hm. rewrite forallb_forall in Hmonths.
  specialize (Hmonths m ltac:(apply zrange_In; lia)).
  apply andb_true_iff in Hmonths. destruct Hmonths as [H3 H4].
  apply Z.leb_le in H3, H4. lia.
Qed.

Lemma days_from_civil_day (y m d : Z) :
  days_from_civil y m d = (days_from_civil y m 1 + (d - 1))%Z.
Proof. unfold days_from_civil. lia. Qed.

Lemma day_in_year (t : Timestamp) :
  in_calendar t -> (jan1 (year t) <= day_number t < jan1 (year t + 1))%Z.
Proof.
  intros [Hy [Hm Hd]]. unfold day_number. rewrite days_from_civil_day.
  destruct (year_facts (year t) ltac:(lia)) as [_ Hmonths].
  destruct (Hmonths (month t) Hm) as [H1 H2]. lia.
Qed.

Lemma jan1_mono (k : nat) (y : Z) :
  (1676 <= y)%Z -> (y + Z.of_nat k <= 2264)%Z ->
  (jan1 y + 365 * Z.of_nat k <= jan1 (y + Z.of_nat k))%Z.
Proof.
  induction k as [|k IH]; intros Hlo Hhi.
  - replace (y + Z.of_nat 0)%Z with y by lia. lia.
  - specialize (IH Hlo ltac:(lia)).
    destruct (year_facts (y + Z.of_nat k) ltac:(lia)) as [Hlen _].
    replace (y + Z.of_nat (S k))%Z with (y + Z.of_nat k + 1)%Z by lia. lia.
Qed.

Lemma jan1_lt (y1 y2 : Z) :
  (1676 <= y1)%Z -> (y2 <= 2264)%Z -> (y1 < y2)%Z -> (jan1 y1 + 365 <= jan1 y2)%Z.
Proof.
  intros Hlo Hhi Hlt.
  pose proof (jan1_mono (Z.to_nat (y2 - y1)) y1 Hlo ltac:(lia)) as Hm.
  replace (y1 + Z.of_nat (Z.to_nat (y2 - y1)))%Z with y2 in Hm by lia. lia.
Qed.

Lemma thursday_of_week (n : Z) :
  (n - (isoweekday n - 1) + 3 = 7 * week_of_day n)%Z.
Proof.
  unfold isoweekday, week_of_day.
  pose proof (Z.div_mod (n + 3) 7 ltac:(lia)). lia.
Qed.

Lemma safe_week_label (t : Timestamp) :
  safe_week t = label_of (fst (isocalendar t)) (snd (isocalendar t)).
Proof. unfold safe_week. now destruct (isocalendar t). Qed.

(** The ISO year of a date is the calendar year of the Thursday of its
    week, and the ISO week counts the Thursdays of that year. *)
Lemma isocalendar_spec (t : Timestamp) :
  in_calendar t ->
  let gy := fst (isocalendar t) in
  let thu := (7 * week_index t)%Z in
  (1676 <= gy <= 2263)%Z
  /\ (jan1 gy <= thu < jan1 (gy + 1))%Z
  /\ snd (isocalendar t) = ((thu - jan1 gy) / 7 + 1)%Z.
Proof.
  intros Hcal. pose proof (day_in_year t Hcal) as Hn.
  destruct Hcal as [Hy _].
  unfold isocalendar, week_index.
  fold (day_number t). rewrite thursday_of_week.
  fold (jan1 (year t)). fold (jan1 (year t + 1)).
  set (thu := (7 * week_of_day (day_number t))%Z).
  assert (Hthu : (day_number t - 3 <= thu <= day_number t + 3)%Z).
  { unfold thu. rewrite <- thursday_of_week. unfold isoweekday.
    pose proof (Z.mod_pos_bound (day_number t + 3) 7 ltac:(lia)). lia. }
  destruct (year_facts (year t - 1) ltac:(lia)) as [Hprev _].
  destruct (year_facts (year t) ltac:(lia)) as [Hthis _].
  destruct (year_facts (year t + 1) ltac:(lia)) as [Hnext _].
  replace (year t - 1 + 1)%Z with (year t) in Hprev by lia.
  replace (year t + 1 + 1)%Z with (year t + 2)%Z in Hnext by lia.
  destruct (thu <? jan1 (year t))%Z eqn:E1.
  - apply Z.ltb_lt in E1. cbn [fst snd].
    replace (year t - 1 + 1)%Z with (year t) by lia.
    fold (jan1 (year t - 1)). repeat split; lia.
  - apply Z.ltb_ge in E1.
    destruct (jan1 (year t + 1) <=? thu)%Z eqn:E2.
    + apply Z.leb_le in E2. cbn [fst snd].
      replace (year t + 1 + 1)%Z with (year t + 2)%Z by lia.
      fold (jan1 (year t + 1)). repeat split; lia.
    + apply Z.leb_gt in E2. cbn [fst snd].
      fold (jan1 (year t)). repeat split; lia.
Qed.

Lemma iso_week_range (t : Timestamp) :
  in_calendar t -> (1 <= snd (isocalendar t) <= 53)%Z.
Proof.
  intros Hcal. destruct (isocalendar_spec t Hcal) as [Hg [Hthu ->]].
  destruct (year_facts (fst (isocalendar t)) Hg) as [Hlen _].
  set (x := (7 * week_index t - jan1 (fst (isocalendar t)))%Z) in *.
  assert (0 <= x < 366)%Z by (unfold x; lia).
  pose proof (Z.div_mod x 7 ltac:(lia)).
  pose proof (Z.mod_pos_bound x 7 ltac:(lia)). lia.
Qed.

Lemma next_week_label (g : Z * Z) :
  (1676 <= fst g <= 2263)%Z -> (1 <= snd g <= 53)%Z ->
  String.compare (label_of (fst g) (snd g))
                 (label_of (fst (next_week g)) (snd (next_week g))) = Lt.
Proof.
  intros Hg Hw. pose proof labels_checked as Hall.
  rewrite forallb_forall in Hall.
  specialize (Hall (fst g) ltac:(apply zrange_In; lia)).
  unfold labels_increase in Hall. rewrite forallb_forall in Hall.
  specialize (Hall (snd g) ltac:(apply zrange_In; lia)).
  rewrite <- surjective_pairing in Hall.
  now destruct (String.compare _ _).
Qed.

Lemma label_order_steps (k : nat) (g1 g2 : Z * Z) :
  (1676 <= fst g1)%Z -> (fst g2 <= 2263)%Z ->
  (1 <= snd g1 <= 53)%Z -> (1 <= snd g2 <= 53)%Z ->
  (week_place g2 = week_place g1 + Z.of_nat (S k))%Z ->
  String.compare (label_of (fst g1) (snd g1)) (label_of (fst g2) (snd g2)) = Lt.
Proof.
  revert g1. induction k as [|k IH]; intros g1 Hlo Hhi Hw1 Hw2 Hplace.
  - assert (Hnext : next_week g1 = g2).
    { unfold next_week, week_place in *. destruct g1 as [y1 w1], g2 as [y2 w2].
      cbn [fst snd] in *. destruct (w1 =? 53)%Z eqn:E.
      - apply Z.eqb_eq in E. f_equal; lia.
      - apply Z.eqb_neq in E. f_equal; lia. }
    rewrite <- Hnext. apply next_week_label; [|exact Hw1].
    unfold week_place in Hplace. lia.
  - assert (Hg1 : (fst g1 <= 2263)%Z) by (unfold week_place in Hplace; lia).
    apply (cmp_lt_trans _ (label_of (fst (next_week g1)) (snd (next_week g1)))).
    + apply next_week_label; [lia|exact Hw1].
    + apply IH; try assumption.
      * unfold next_week. destruct (snd g1 =? 53)%Z; cbn [fst]; lia.
      * unfold next_week. destruct (snd g1 =? 53)%Z eqn:E; cbn [snd]; [lia|].
        apply Z.eqb_neq in E. lia.
      * unfold next_week, week_place in *. destruct (snd g1 =? 53)%Z eqn:E;
          cbn [fst snd]; [apply Z.eqb_eq in E|apply Z.eqb_neq in E]; lia.
Qed.

Lemma label_order (y1 w1 y2 w2 : Z) :
  (1676 <= y1)%Z -> (y2 <= 2263)%Z -> (1 <= w1 <= 53)%Z -> (1 <= w2 <= 53)%Z ->
  (y1 < y2 \/ (y1 = y2 /\ w1 < w2))%Z ->
  String.compare (label_of y1 w1) (label_of y2 w2) = Lt.
Proof.
  intros Hlo Hhi Hw1 Hw2 Hlt.
  apply (label_order_steps
           (Z.to_nat (week_place (y2, w2) - week_place (y1, w1) - 1)) (y1, w1) (y2, w2));
    try assumption.
  unfold week_place. cbn [fst snd]. lia.
Qed.

(** The ISO year and week of a week: one function of the week index. *)
Lemma iso_week_order (a b : Timestamp) :
  in_calendar a -> in_calendar b ->
  (week_index a = week_index b -> isocalendar a = isocalendar b)
  /\ ((week_index a < week_index b)%Z ->
      (fst (isocalendar a) < fst (isocalendar b)
       \/ (fst (isocalendar a) = fst (isocalendar b)
           /\ snd (isocalendar a) < snd (isocalendar b)))%Z).
Proof.
  intros Ha Hb.
  destruct (isocalendar_spec a Ha) as [Hga [Hta Hwa]].
  destruct (isocalendar_spec b Hb) as [Hgb [Htb Hwb]].
  set (ga := fst (isocalendar a)) in *. set (gb := fst (isocalendar b)) in *.
  assert (Hyear : (7 * week_index a <= 7 * week_index b)%Z -> (ga <= gb)%Z).
  { intros Hle. destruct (Z.le_gt_cases ga gb) as [H|H]; [exact H|].
    pose proof (jan1_lt (gb + 1) (ga + 1) ltac:(lia) ltac:(lia) ltac:(lia)).
    destruct (Z.eq_dec (gb + 1) ga) as [Heq|Hne].
    - rewrite Heq in Htb. lia.
    - pose proof (jan1_lt (gb + 1) ga ltac:(lia) ltac:(lia) ltac:(lia)). lia. }
  assert (Hyear' : (7 * week_index b <= 7 * week_index a)%Z -> (gb <= ga)%Z).
  { intros Hle. destruct (Z.le_gt_cases gb ga) as [H|H]; [exact H|].
    destruct (Z.eq_dec (ga + 1) gb) as [Heq|Hne].
    - rewrite Heq in Hta. lia.
    - pose proof (jan1_lt (ga + 1) gb ltac:(lia) ltac:(lia) ltac:(lia)). lia. }
  split.
  - intros Heq. rewrite (surjective_pairing (isocalendar a)),
      (surjective_pairing (isocalendar b)).
    assert (Hg : ga = gb) by (apply Z.le_antisymm; [apply Hyear|apply Hyear']; lia).
    fold ga gb. rewrite Hwa, Hwb, Heq, Hg. reflexivity.
  - intros Hlt. specialize (Hyear ltac:(lia)).
    destruct (Z.eq_dec ga gb) as [Hg|Hg]; [right|left; lia].
    split; [exact Hg|]. rewrite Hwa, Hwb, Hg.
    pose proof (Z.div_mod (7 * week_index a - jan1 gb) 7 ltac:(lia)).
    pose proof (Z.mod_pos_bound (7 * week_index a - jan1 gb) 7 ltac:(lia)).
    pose proof (Z.div_mod (7 * week_index b - jan1 gb) 7 ltac:(lia)).
    pose proof (Z.mod_pos_bound (7 * week_index b - jan1 gb) 7 ltac:(lia)).
    lia.
Qed.

(** X15 (lines 44-47, 101).  For any two dates of the calendar years 1677
    to 2262: they get the same week label exactly when they lie in the
    same Monday-to-Sunday week, and the label of the first is smaller in
    string order exactly when its week is the earlier one; the week
    number is between 1 and 53.  So sorting the labels, as line 101 does,
    sorts the weeks in time. *)
Theorem week_labels_sort_in_time (a b : Timestamp) :
  in_calendar a -> in_calendar b ->
  (safe_week a = safe_week b <-> week_index a = week_index b)
  /\ (String.compare (safe_week a) (safe_week b) = Lt
      <-> (week_index a < week_index b)%Z)
  /\ (1 <= snd (isocalendar a) <= 53)%Z.
Proof.
  intros Ha Hb.
  assert (Hlt : forall x y, in_calendar x -> in_calendar y ->
                  (week_index x < week_index y)%Z ->
                  String.compare (safe_week x) (safe_week y) = Lt).
  { intros x y Hx Hy Hxy. rewrite !safe_week_label.
    destruct (isocalendar_spec x Hx) as [Hgx _].
    destruct (isocalendar_spec y Hy) as [Hgy _].
    apply label_order; try lia; try now apply iso_week_range.
    now apply (iso_week_order x y Hx Hy). }
  assert (Heq : week_index a = week_index b -> safe_week a = safe_week b).
  { intros Hw. rewrite !safe_week_label.
    now rewrite (proj1 (iso_week_order a b Ha Hb) Hw). }
  assert (Hirr : forall s, String.compare s s <> Lt)
    by (intros s; now rewrite cmp_refl).
  split; [|split; [|now apply iso_week_range]]; split.
  - intros Hs.
    destruct (Z.lt_total (week_index a) (week_index b)) as [H|[H|H]]; [|exact H|].
    + pose proof (Hlt a b Ha Hb H) as Hc. rewrite Hs in Hc. now apply Hirr in Hc.
    + pose proof (Hlt b a Hb Ha H) as Hc. rewrite Hs in Hc. now apply Hirr in Hc.
  - exact Heq.
  - intros Hs.
    destruct (Z.lt_total (week_index a) (week_index b)) as [H|[H|H]]; [exact H| |].
    + rewrite (Heq H) in Hs. now apply Hirr in Hs.
    + pose proof (Hlt b a Hb Ha H) as Hc. rewrite cmp_antisym, Hs in Hc. discriminate.
  - now apply Hlt.
Qed.

(** The last day of 2024 and the first Sunday of 2025 share 2025-W01;
    the Sunday before is in 2024-W52. *)
Lemma week_labels_sort_in_time_witness :
  safe_week {| year := 2024; month := 12; day := 31 |}
  = safe_week {| year := 2025; month := 1; day := 5 |}
  /\ String.compare (safe_week {| year := 2024; month := 12; day := 29 |})
                    (safe_week {| year := 2025; month := 1; day := 5 |}) = Lt.
Proof.
  assert (H1 : in_calendar {| year := 2024; month := 12; day := 31 |})
    by (repeat split; vm_compute; discriminate).
  assert (H2 : in_calendar {| year := 2025; month := 1; day := 5 |})
    by (repeat split; vm_compute; discriminate).
  assert (H3 : in_calendar {| year := 2024; month := 12; day := 29 |})
    by (repeat split; vm_compute; discriminate).
  split.
  - exact (proj2 (proj1 (week_labels_sort_in_time _ _ H1 H2)) eq_refl).
  - exact (proj2 (proj1 (proj2 (week_labels_sort_in_time _ _ H3 H2))) eq_refl).
Defined.
